(** * Regression math utilities

    A shallow embedding of [src/utils/regressionMath.js]: least-squares
    fitting, error metrics, batch gradient descent, cost-surface sampling
    and IQR outlier detection.

    JavaScript numbers are IEEE 754 binary64 values, so they are modelled
    by Rocq's primitive [float] (the same format, round to nearest even).
    Counts that the source only ever uses as integers ([iterations],
    [resolution], array lengths, loop counters, the epoch number) are
    [nat]; default parameter values are left to the caller. *)

From Stdlib Require Import ZArith List Bool Lia Uint63 Floats Permutation Sorted.
Import ListNotations.

Set Implicit Arguments.

(** ** JavaScript numbers and array primitives *)

Module JS.

(** An array length or loop counter read as a number. *)
Definition of_nat (n : nat) : float :=
  PrimFloat.of_uint63 (Uint63.of_Z (Z.of_nat n)).

(** The global [isFinite]: false on NaN, +Infinity and -Infinity. *)
Definition isFinite (v : float) : bool := PrimFloat.is_finite v.

(** [v ** 2]: the correctly rounded square [v * v], which is what the
    runtime's [pow] returns for the exponent 2. *)
Definition sq (v : float) : float := (v * v)%float.

(** [a !== b] on numbers. *)
Definition strict_ne (a b : float) : bool := negb (a =? b)%float.

(** [a > b] on numbers. *)
Definition gt (a b : float) : bool := (b <? a)%float.

(** [Math.floor] of a number, as an integer (0 where the source never
    calls it: NaN and the infinities); [Z.to_nat] of it indexes an array. *)
Definition Math_floor (v : float) : Z :=
  match Prim2SF v with
  | S754_finite s m e =>
      let sm := if s then Z.neg m else Z.pos m in
      if (0 <=? e)%Z then (sm * 2 ^ e)%Z else (sm / 2 ^ (- e))%Z
  | _ => 0%Z
  end.

(** [array.reduce(f, init)]. *)
Definition reduce {A B : Type} (f : B -> A -> B) (init : B) (arr : list A) : B :=
  fold_left f arr init.

(** [array.forEach(f)] where [f] updates the captured variables [st]. *)
Definition forEach {A St : Type} (f : St -> A -> St) (arr : list A) (st : St) : St :=
  fold_left f arr st.

(** [array.map((v, i) => f(v, i))], the index counted from [i]. *)
Fixpoint mapi_from {A B : Type} (f : A -> nat -> B) (i : nat) (arr : list A) : list B :=
  match arr with
  | [] => []
  | v :: rest => f v i :: mapi_from f (S i) rest
  end.

Definition mapi {A B : Type} (f : A -> nat -> B) (arr : list A) : list B :=
  mapi_from f 0 arr.

(** [for (let i = start; ...; i++) body], run [count] times on the
    variables [st] the body assigns to. *)
Fixpoint for_loop {St : Type} (count : nat) (i : nat)
         (body : nat -> St -> St) (st : St) : St :=
  match count with
  | O => st
  | S count' => for_loop count' (S i) body (body i st)
  end.

(** [array.sort(comparefn)]: the sort is stable.  Elements enter from the
    end of the array; an element [e] already placed stays ahead of the
    entering [v], which came before it, only when [comparefn(e, v) < 0]
    (a NaN from the comparator counts as 0, so it does not).  For a
    comparator that orders the elements consistently every stable sort
    returns this list.  For one that does not, as [(a, b) => a - b] on
    an array that holds a NaN, the order a runtime leaves is its own
    choice and need not be this one: what is proved of the sorted array
    below is proved for arrays without NaN, where the ascending
    arrangement is unique ([Sorted_unique]). *)
Fixpoint sort_insert {A : Type} (comparefn : A -> A -> float) (v : A) (sorted : list A) : list A :=
  match sorted with
  | [] => [v]
  | e :: rest =>
      if (comparefn e v <? 0)%float
      then e :: sort_insert comparefn v rest
      else v :: sorted
  end.

Fixpoint sort {A : Type} (comparefn : A -> A -> float) (arr : list A) : list A :=
  match arr with
  | [] => []
  | v :: rest => sort_insert comparefn v (sort comparefn rest)
  end.

End JS.

(** ** Data model *)

Module Point.
Record t := mk { x : float; y : float }.
End Point.

Module Prediction.
Record t := mk { x : float; yActual : float; yPredicted : float }.
End Prediction.

Module FitResult.
(** [meanX] and [meanY] are absent from the degenerate result. *)
Record t := mk {
  slope : float;
  intercept : float;
  predictions : list Prediction.t;
  meanX : option float;
  meanY : option float
}.
End FitResult.

Module EpochRecord.
Record t := mk {
  epoch : nat;
  slope : float;
  intercept : float;
  loss : float;
  slopeGradient : float;
  interceptGradient : float
}.
End EpochRecord.

Module OptimizationRun.
Record t := mk {
  finalSlope : float;
  finalIntercept : float;
  history : list EpochRecord.t;
  converged : bool
}.
End OptimizationRun.

Module CostSurface.
Record t := mk {
  slopes : list (list float);
  intercepts : list (list float);
  costs : list (list float)
}.
End CostSurface.

Module Residual.
Record t := mk { index : nat; residual : float }.
End Residual.

(** ** The functions of regressionMath.js *)

Section RegressionMath.

Open Scope float_scope.

Definition calculateLinearRegression (points : list Point.t) : FitResult.t :=
  if (length points <? 2)%nat then
    FitResult.mk 0 0 [] None None
  else
    let n := JS.of_nat (length points) in
    let sumX := JS.reduce (fun acc p => acc + Point.x p) 0 points in
    let sumY := JS.reduce (fun acc p => acc + Point.y p) 0 points in
    let meanX := sumX / n in
    let meanY := sumY / n in
    let '(numerator, denominator) :=
      JS.forEach (fun '(numerator, denominator) p =>
                    (numerator + (Point.x p - meanX) * (Point.y p - meanY),
                     denominator + JS.sq (Point.x p - meanX)))
                 points (0, 0) in
    let slope := if JS.strict_ne denominator 0 then numerator / denominator else 0 in
    let intercept := meanY - slope * meanX in
    let predictions :=
      map (fun p => Prediction.mk (Point.x p) (Point.y p) (slope * Point.x p + intercept))
          points in
    FitResult.mk slope intercept predictions (Some meanX) (Some meanY).

Definition calculateMSE (points : list Point.t) (slope intercept : float) : float :=
  if (length points =? 0)%nat then 0
  else
    let sumSquaredError :=
      JS.reduce (fun acc p =>
                   let predicted := slope * Point.x p + intercept in
                   acc + JS.sq (Point.y p - predicted)) 0 points in
    sumSquaredError / JS.of_nat (length points).

Definition calculateRMSE (points : list Point.t) (slope intercept : float) : float :=
  PrimFloat.sqrt (calculateMSE points slope intercept).

Definition calculateMAE (points : list Point.t) (slope intercept : float) : float :=
  if (length points =? 0)%nat then 0
  else
    let sumAbsoluteError :=
      JS.reduce (fun acc p =>
                   let predicted := slope * Point.x p + intercept in
                   acc + PrimFloat.abs (Point.y p - predicted)) 0 points in
    sumAbsoluteError / JS.of_nat (length points).

Definition calculateR2 (points : list Point.t) (slope intercept : float) : float :=
  if (length points <? 2)%nat then 0
  else
    let meanY := JS.reduce (fun acc p => acc + Point.y p) 0 points
                 / JS.of_nat (length points) in
    let ssRes :=
      JS.reduce (fun acc p =>
                   let predicted := slope * Point.x p + intercept in
                   acc + JS.sq (Point.y p - predicted)) 0 points in
    let ssTot :=
      JS.reduce (fun acc p => acc + JS.sq (Point.y p - meanY)) 0 points in
    if ssTot =? 0 then 0
    else 1 - (ssRes / ssTot).

(** The variables the epoch loop of [gradientDescent] assigns to. *)
Record gd_state := mk_gd_state {
  gd_slope : float;
  gd_intercept : float;
  gd_history : list EpochRecord.t
}.

(** The loop [for (let i = 0; i < iterations; i++)], entered with counter
    [i] and [remaining = iterations - i] iterations still to run; the
    [break] leaves it with the state reached. *)
Fixpoint gd_loop (points : list Point.t) (learningRate : float) (n : float)
         (remaining : nat) (i : nat) (st : gd_state) : gd_state :=
  match remaining with
  | O => st
  | S remaining' =>
      let slope := gd_slope st in
      let intercept := gd_intercept st in
      let '(slopeGradient, interceptGradient) :=
        JS.forEach (fun '(slopeGradient, interceptGradient) p =>
                      let prediction := slope * Point.x p + intercept in
                      let error := prediction - Point.y p in
                      (slopeGradient + error * Point.x p, interceptGradient + error))
                   points (0, 0) in
      let slopeGradient := (2 / n) * slopeGradient in
      let interceptGradient := (2 / n) * interceptGradient in
      let slope := slope - learningRate * slopeGradient in
      let intercept := intercept - learningRate * interceptGradient in
      let mse := calculateMSE points slope intercept in
      let history :=
        gd_history st ++
        [EpochRecord.mk (i + 1) slope intercept mse slopeGradient interceptGradient] in
      let st' := mk_gd_state slope intercept history in
      if negb (JS.isFinite mse) then st'
      else gd_loop points learningRate n remaining' (S i) st'
  end.

Definition gradientDescent (points : list Point.t) (learningRate : float)
           (iterations : nat) (initialSlope initialIntercept : float)
  : OptimizationRun.t :=
  let n := JS.of_nat (length points) in
  let st := gd_loop points learningRate n iterations 0
                    (mk_gd_state initialSlope initialIntercept []) in
  let history := gd_history st in
  OptimizationRun.mk
    (gd_slope st) (gd_intercept st) history
    ((0 <? length history)%nat &&
     JS.isFinite (EpochRecord.loss
                    (nth (length history - 1) history
                         (EpochRecord.mk 0 0 0 0 0 0)))).

Definition normalEquation (points : list Point.t) : FitResult.t :=
  calculateLinearRegression points.

(** The three rows (or the three grids) under construction. *)
Definition grids (A : Type) : Type := (list A * list A * list A)%type.

Definition generateCostSurface (points : list Point.t)
           (slopeRange interceptRange : float * float) (resolution : nat)
  : CostSurface.t :=
  let slopeStep := (snd slopeRange - fst slopeRange) / JS.of_nat resolution in
  let interceptStep := (snd interceptRange - fst interceptRange) / JS.of_nat resolution in
  let '(slopes, intercepts, costs) :=
    JS.for_loop (S resolution) 0
      (fun i '(slopes, intercepts, costs) =>
         let '(slopeRow, interceptRow, costRow) :=
           JS.for_loop (S resolution) 0
             (fun j '(slopeRow, interceptRow, costRow) =>
                let s := fst slopeRange + JS.of_nat i * slopeStep in
                let b := fst interceptRange + JS.of_nat j * interceptStep in
                (slopeRow ++ [s], interceptRow ++ [b],
                 costRow ++ [calculateMSE points s b]))
             (([], [], []) : grids float) in
         (slopes ++ [slopeRow], intercepts ++ [interceptRow], costs ++ [costRow]))
      (([], [], []) : grids (list float)) in
  CostSurface.mk slopes intercepts costs.

(** [sorted[q1Index]] is read with [nth]: an index outside the array
    would give [undefined], whose [.residual] throws; the indices are
    shown to be inside the array below. *)
Definition detectOutliers (points : list Point.t) (slope intercept : float) : list nat :=
  if (length points <? 4)%nat then []
  else
    let residuals :=
      JS.mapi (fun p i =>
                 Residual.mk i (PrimFloat.abs
                                  (Point.y p - (slope * Point.x p + intercept))))
              points in
    let sorted :=
      JS.sort (fun a b => Residual.residual a - Residual.residual b) residuals in
    let q1Index := JS.Math_floor (JS.of_nat (length sorted) * 0.25) in
    let q3Index := JS.Math_floor (JS.of_nat (length sorted) * 0.75) in
    let q1 := Residual.residual (nth (Z.to_nat q1Index) sorted (Residual.mk 0 nan)) in
    let q3 := Residual.residual (nth (Z.to_nat q3Index) sorted (Residual.mk 0 nan)) in
    let iqr := q3 - q1 in
    let threshold := q3 + 1.5 * iqr in
    map Residual.index
        (filter (fun r => JS.gt (Residual.residual r) threshold) residuals).

End RegressionMath.

(** ** Facts about binary64 arithmetic

    Derived from the specification of the primitive operations
    ([FloatAxioms]) by case analysis on the decoded operands. *)

Section FloatFacts.

Open Scope float_scope.

Lemma Prim2SF_nan : Prim2SF nan = S754_nan.
Proof. reflexivity. Qed.

Lemma Prim2SF_zero : Prim2SF 0 = S754_zero false.
Proof. reflexivity. Qed.

Lemma mul_nan_r (a : float) : a * nan = nan.
Proof.
  apply Prim2SF_inj. rewrite mul_spec, Prim2SF_nan.
  destruct (Prim2SF a); reflexivity.
Qed.

Lemma sub_nan_r (a : float) : a - nan = nan.
Proof.
  apply Prim2SF_inj. rewrite sub_spec, Prim2SF_nan.
  destruct (Prim2SF a); reflexivity.
Qed.

(** A decoded value that is not below zero: NaN, a zero, or anything with
    a clear sign bit. *)
Definition SF_not_negative (v : spec_float) : Prop :=
  match v with
  | S754_nan | S754_zero _ => True
  | S754_infinity s | S754_finite s _ _ => s = false
  end.

Lemma SF_not_negative_ltb (v : spec_float) :
  SF_not_negative v -> SFltb v (S754_zero false) = false.
Proof.
  destruct v as [s| s | |s m e]; simpl; intros H; subst; reflexivity.
Qed.

Lemma binary_round_aux_not_negative (m e : Z) (l : location) :
  SF_not_negative (binary_round_aux prec emax false m e l).
Proof.
  unfold binary_round_aux.
  destruct (shr_fexp prec emax m e l) as [mrs' e'].
  destruct (shr_fexp prec emax _ e' loc_Exact) as [mrs'' e''].
  destruct (shr_m mrs''); simpl; auto.
  destruct (_ <=? _)%Z; simpl; auto.
Qed.

Lemma binary_round_not_negative (m : positive) (e : Z) :
  SF_not_negative (binary_round prec emax false m e).
Proof.
  unfold binary_round.
  destruct (shl_align m e _) as [mz ez].
  apply binary_round_aux_not_negative.
Qed.

(** [Math.sqrt] never returns a negative number. *)
Lemma sqrt_not_negative (a : float) : (PrimFloat.sqrt a <? 0) = false.
Proof.
  rewrite ltb_spec, sqrt_spec, Prim2SF_zero.
  apply SF_not_negative_ltb.
  unfold SF64sqrt, SFsqrt.
  destruct (Prim2SF a) as [s| s | |s m e]; simpl; auto.
  - destruct s; simpl; auto.
  - destruct s; simpl; auto.
    destruct (SFsqrt_core_binary prec emax (Z.pos m) e) as [[mz ez] lz].
    apply binary_round_aux_not_negative.
Qed.

Lemma binary_normalize_opp_not_negative (c e : Z) :
  SFltb (binary_normalize prec emax c e false) (S754_zero false) = true ->
  SF_not_negative (binary_normalize prec emax (- c) e false).
Proof.
  destruct c as [|p|p]; simpl.
  - intros _. exact I.
  - rewrite (@SF_not_negative_ltb _ (binary_round_not_negative p e)). discriminate.
  - intros _. apply binary_round_not_negative.
Qed.

Lemma SFsub_neg_antisym (u v : spec_float) :
  SFltb (SF64sub u v) (S754_zero false) = true ->
  SFltb (SF64sub v u) (S754_zero false) = false.
Proof.
  unfold SF64sub, SFsub.
  destruct u as [su| su | |su mu eu]; destruct v as [sv| sv | |sv mv ev];
    try (destruct su); try (destruct sv);
    try (simpl; unfold SFltb, SFcompare; congruence).
  all: intros H; apply SF_not_negative_ltb.
  all: rewrite (Z.min_comm ev eu).
  all: match goal with
       | |- SF_not_negative (binary_normalize _ _ ?d ?e _) =>
           match type of H with
           | SFltb (binary_normalize _ _ ?c _ _) _ = true =>
               replace d with (Z.opp c) by (unfold cond_Zopp; lia)
           end
       end.
  all: apply binary_normalize_opp_not_negative; exact H.
Qed.

(** The two orders of a subtraction never both come out negative: the
    comparator [(a, b) => a - b] cannot put [a] before [b] and [b] before
    [a]. *)
Lemma sub_neg_antisym (a b : float) :
  (a - b <? 0) = true -> (b - a <? 0) = false.
Proof.
  rewrite !ltb_spec, !sub_spec, Prim2SF_zero.
  apply SFsub_neg_antisym.
Qed.

(** A decoded value that is a zero or a finite non-zero number. *)
Definition SF_is_finite (v : spec_float) : bool :=
  match v with
  | S754_zero _ | S754_finite _ _ _ => true
  | _ => false
  end.

Lemma is_finite_SF (a : float) : PrimFloat.is_finite a = SF_is_finite (Prim2SF a).
Proof.
  unfold PrimFloat.is_finite, is_nan, is_infinity.
  rewrite !eqb_spec, abs_spec.
  change (Prim2SF infinity) with (S754_infinity false).
  destruct (Prim2SF a) as [s|s| |s m e]; try (destruct s; reflexivity).
  - reflexivity.
  - cbn [SFabs SF_is_finite]. unfold SFeqb, SFcompare.
    rewrite Z.compare_refl, Pos.compare_cont_refl.
    destruct s; reflexivity.
Qed.

(** Two finite numbers that compare equal differ by a zero. *)
Lemma SFsub_eq_zero (u v : spec_float) :
  SF_is_finite u = true -> SFeqb u v = true ->
  exists s, SF64sub u v = S754_zero s.
Proof.
  intros Hf He.
  destruct u as [su|su| |su mu eu]; try discriminate Hf;
    destruct v as [sv|sv| |sv mv ev];
    try (unfold SFeqb, SFcompare in He; try destruct su; try destruct sv; discriminate He).
  - destruct su, sv; eexists; reflexivity.
  - unfold SFeqb, SFcompare in He.
    assert (Hs : su = sv) by (destruct su, sv; try discriminate He; reflexivity).
    subst sv.
    rewrite Pos.compare_cont_spec in He.
    assert (Hem : eu = ev /\ mu = mv).
    { destruct su;
        destruct (Z.compare_spec eu ev) as [E|E|E]; try discriminate He;
        destruct (Pos.compare_spec mu mv) as [M|M|M];
        try discriminate He; auto. }
    destruct Hem as [<- <-].
    exists false. unfold SF64sub, SFsub.
    rewrite Z.min_id, Z.sub_diag. reflexivity.
Qed.

Lemma sq_sub_eq_zero (a b : float) :
  PrimFloat.is_finite a = true -> (a =? b) = true -> (a - b) * (a - b) = 0.
Proof.
  rewrite is_finite_SF, eqb_spec. intros Hf He.
  destruct (SFsub_eq_zero _ _ Hf He) as [s Hs].
  apply Prim2SF_inj. rewrite mul_spec, sub_spec, Hs.
  destruct s; reflexivity.
Qed.

(** For a positive [t], infinite or not, [0 / t] is 0. *)
Lemma one_minus_zero_over_pos (t : float) :
  (0 <? t) = true -> (t =? 0) = false /\ 1 - 0 / t = 1.
Proof.
  rewrite ltb_spec, eqb_spec, Prim2SF_zero. intros Ht.
  assert (Hd : Prim2SF (0 / t) = S754_zero false /\ SFeqb (Prim2SF t) (S754_zero false) = false).
  { rewrite div_spec, Prim2SF_zero.
    destruct (Prim2SF t) as [s|s| |s m e]; try discriminate Ht;
      destruct s; try discriminate Ht; split; reflexivity. }
  destruct Hd as [Hd He]. split; [exact He|].
  apply Prim2SF_inj. rewrite sub_spec, Hd. reflexivity.
Qed.

End FloatFacts.

(** ** Rounding keeps the sign of a non-zero result *)

Section FloatRounding.

Open Scope Z_scope.

Lemma digits2_pos_size (p : positive) : digits2_pos p = Pos.size p.
Proof. induction p; simpl; congruence. Qed.

(** A mantissa of [d] binary digits lies in [[2^(d-1), 2^d)]. *)
Lemma digits2_pos_bounds (p : positive) :
  2 ^ (Z.pos (digits2_pos p) - 1) <= Z.pos p < 2 ^ Z.pos (digits2_pos p).
Proof.
  induction p as [p IH|p IH|]; cbn [digits2_pos].
  - rewrite Pos2Z.inj_succ.
    replace (Z.succ (Z.pos (digits2_pos p)) - 1) with (Z.succ (Z.pos (digits2_pos p) - 1)) by lia.
    rewrite !Z.pow_succ_r by lia. lia.
  - rewrite Pos2Z.inj_succ.
    replace (Z.succ (Z.pos (digits2_pos p)) - 1) with (Z.succ (Z.pos (digits2_pos p) - 1)) by lia.
    rewrite !Z.pow_succ_r by lia. lia.
  - simpl. lia.
Qed.

Lemma iter_pos_iter {A : Type} (f : A -> A) (n : positive) (x : A) :
  iter_pos f n x = Pos.iter f x n.
Proof.
  revert x. induction n as [n IH|n IH|]; intros x; cbn [iter_pos Pos.iter].
  - rewrite !IH. rewrite <- !Pos.iter_swap. reflexivity.
  - rewrite !IH. reflexivity.
  - reflexivity.
Qed.

Lemma shr_1_m (mrs : shr_record) :
  0 <= shr_m mrs -> shr_m (shr_1 mrs) = shr_m mrs / 2.
Proof.
  destruct mrs as [m r s]. cbn [shr_m]. intros Hm.
  destruct m as [|p|p]; [reflexivity| |lia].
  destruct p as [p|p|]; cbn [shr_1 shr_m].
  - rewrite Pos2Z.inj_xI. apply Z.div_unique with (r := 1); lia.
  - rewrite Pos2Z.inj_xO. apply Z.div_unique with (r := 0); lia.
  - reflexivity.
Qed.

(** [n] right shifts divide a non-negative mantissa by [2^n]. *)
Lemma shr_iter_m (n : positive) (mrs : shr_record) :
  0 <= shr_m mrs -> shr_m (iter_pos shr_1 n mrs) = shr_m mrs / 2 ^ Z.pos n.
Proof.
  rewrite iter_pos_iter. intros Hm.
  induction n as [|n IH] using Pos.peano_ind.
  - simpl. rewrite shr_1_m by assumption. reflexivity.
  - rewrite Pos.iter_succ, shr_1_m.
    + rewrite IH, Pos2Z.inj_succ, Z.pow_succ_r by lia.
      rewrite Z.div_div by lia. f_equal. lia.
    + rewrite IH. apply Z.div_pos; lia.
Qed.

Lemma shr_record_of_loc_m (m : Z) (l : location) : shr_m (shr_record_of_loc m l) = m.
Proof. destruct l as [|[]]; reflexivity. Qed.

(** Bringing a positive mantissa to the format's exponent never shifts
    all of its digits out. *)
Lemma shr_fexp_pos (m : positive) (e : Z) (l : location) :
  emin <= e ->
  0 < shr_m (fst (shr_fexp prec emax (Z.pos m) e l))
  /\ emin <= snd (shr_fexp prec emax (Z.pos m) e l).
Proof.
  intros He. unfold shr_fexp, shr. cbn [Zdigits2].
  pose proof (digits2_pos_bounds m) as Hd.
  destruct (fexp prec emax (Z.pos (digits2_pos m) + e) - e) as [|n|n] eqn:En;
    cbn [fst snd]; rewrite ?shr_record_of_loc_m; try (split; lia).
  rewrite shr_iter_m by (rewrite shr_record_of_loc_m; lia).
  rewrite shr_record_of_loc_m.
  unfold fexp, SpecFloat.emin, prec, emax in *.
  split; [|lia].
  apply Z.div_str_pos. split; [lia|].
  apply Z.le_trans with (2 ^ (Z.pos (digits2_pos m) - 1)); [|lia].
  apply Z.pow_le_mono_r; lia.
Qed.

Lemma round_nearest_even_pos (m : Z) (l : location) :
  0 < m -> 0 < round_nearest_even m l.
Proof.
  intros Hm. unfold round_nearest_even.
  destruct l as [|[]]; try lia. destruct (Z.even m); lia.
Qed.

(** A non-zero number, finite or infinite, of sign [s]. *)
Definition SF_signed (s : bool) (v : spec_float) : Prop :=
  match v with
  | S754_finite s' _ _ | S754_infinity s' => s' = s
  | _ => False
  end.

(** Rounding a non-zero mantissa at an exponent of the format gives a
    non-zero number of the same sign: it does not flush to zero. *)
Lemma binary_round_aux_signed (s : bool) (m : positive) (e : Z) (l : location) :
  emin <= e -> SF_signed s (binary_round_aux prec emax s (Z.pos m) e l).
Proof.
  intros He. unfold binary_round_aux.
  destruct (shr_fexp_pos m l He) as [Hm1 He1].
  destruct (shr_fexp prec emax (Z.pos m) e l) as [mrs' e']. cbn [fst snd] in Hm1, He1.
  pose proof (round_nearest_even_pos (loc_of_shr_record mrs') Hm1) as Hr.
  destruct (round_nearest_even (shr_m mrs') (loc_of_shr_record mrs')) as [|q|q]; try lia.
  destruct (shr_fexp_pos q loc_Exact He1) as [Hm2 _].
  destruct (shr_fexp prec emax (Z.pos q) e' loc_Exact) as [mrs'' e'']. cbn [fst] in Hm2.
  destruct (shr_m mrs'') as [|q'|q']; try lia.
  destruct (_ <=? _); reflexivity.
Qed.

Lemma binary_round_signed (s : bool) (m : positive) (e : Z) :
  emin <= e -> SF_signed s (binary_round prec emax s m e).
Proof.
  intros He. unfold binary_round, shl_align.
  destruct (fexp prec emax (Z.pos (digits2_pos m) + e) - e) as [|d|d] eqn:Ed;
    apply binary_round_aux_signed; try exact He.
  unfold fexp, SpecFloat.emin, prec, emax in *. lia.
Qed.

Lemma SF_signed_negative (v : spec_float) :
  SF_signed true v -> SFltb v (S754_zero false) = true.
Proof. destruct v as [s|s| |s m e]; simpl; intros H; subst; try reflexivity; destruct H. Qed.

Lemma iter_xO_pow (m d : positive) : Z.pos (Pos.iter xO m d) = Z.pos m * 2 ^ Z.pos d.
Proof.
  induction d as [|d IH] using Pos.peano_ind.
  - simpl. lia.
  - rewrite Pos.iter_succ, Pos2Z.inj_xO, IH, Pos2Z.inj_succ, Z.pow_succ_r by lia. lia.
Qed.

Lemma shl_align_val (m : positive) (e ez : Z) :
  ez <= e -> Z.pos (fst (shl_align m e ez)) = Z.pos m * 2 ^ (e - ez).
Proof.
  intros H. unfold shl_align.
  destruct (ez - e) as [|d|d] eqn:Ed; cbn [fst]; try lia.
  - replace (e - ez) with 0 by lia. simpl. lia.
  - rewrite iter_xO_pow. f_equal. f_equal. lia.
Qed.

(** What validity says of a finite number: the exponent is at least
    [emin], the mantissa has at most 53 digits, and exactly 53 unless the
    exponent is [emin]. *)
Lemma bounded_canonical (m : positive) (e : Z) :
  bounded prec emax m e = true ->
  emin <= e
  /\ Z.pos m < 2 ^ 53
  /\ (emin < e -> 2 ^ 52 <= Z.pos m).
Proof.
  unfold bounded, canonical_mantissa. intros H.
  apply andb_prop in H. destruct H as [H _]. apply Z.eqb_eq in H.
  pose proof (digits2_pos_bounds m) as [Hlo Hhi].
  unfold fexp, SpecFloat.emin, prec, emax in *.
  assert (Hd : Z.pos (digits2_pos m) <= 53) by lia.
  repeat split.
  - lia.
  - apply Z.lt_le_trans with (2 ^ Z.pos (digits2_pos m)); [exact Hhi|].
    apply Z.pow_le_mono_r; lia.
  - intros He. replace (Z.pos (digits2_pos m)) with 53 in Hlo by lia. exact Hlo.
Qed.

Lemma pos_compare_cont_Eq (p q : positive) :
  Pos.compare_cont Eq p q = (Z.pos p ?= Z.pos q).
Proof. reflexivity. Qed.

(** Aligned to the smaller exponent, a valid number with the larger
    exponent has the larger mantissa. *)
Lemma aligned_lt (m1 m2 : positive) (e1 e2 : Z) :
  bounded prec emax m1 e1 = true -> bounded prec emax m2 e2 = true ->
  e1 < e2 ->
  Z.pos m1 * 2 ^ (e1 - Z.min e1 e2) < Z.pos m2 * 2 ^ (e2 - Z.min e1 e2).
Proof.
  intros H1 H2 He.
  destruct (bounded_canonical _ _ H1) as [He1 [Hm1 _]].
  destruct (bounded_canonical _ _ H2) as [_ [_ Hm2]].
  specialize (Hm2 ltac:(lia)).
  rewrite Z.min_l by lia. rewrite Z.sub_diag. change (2 ^ 0) with 1.
  assert (Hp : 2 ^ 1 <= 2 ^ (e2 - e1)) by (apply Z.pow_le_mono_r; lia).
  change (2 ^ 1) with 2 in Hp.
  change (2 ^ 53) with 9007199254740992 in *.
  change (2 ^ 52) with 4503599627370496 in *.
  nia.
Qed.

Lemma SFsub_finite_negative (sa sb : bool) (ma mb : positive) (ea eb : Z) :
  bounded prec emax ma ea = true -> bounded prec emax mb eb = true ->
  SFcompare (S754_finite sa ma ea) (S754_finite sb mb eb) = Some Gt ->
  SFltb (SF64sub (S754_finite sb mb eb) (S754_finite sa ma ea)) (S754_zero false) = true.
Proof.
  intros Ha Hb Hcmp.
  destruct (bounded_canonical _ _ Ha) as [Hea _].
  destruct (bounded_canonical _ _ Hb) as [Heb _].
  unfold SF64sub, SFsub.
  set (ez := Z.min eb ea).
  rewrite !shl_align_val by (unfold ez; lia).
  assert (Hc : cond_Zopp sb (Z.pos mb * 2 ^ (eb - ez))
               - cond_Zopp sa (Z.pos ma * 2 ^ (ea - ez)) < 0).
  { assert (HX : 0 < Z.pos ma * 2 ^ (ea - ez))
      by (apply Z.mul_pos_pos; [lia|apply Z.pow_pos_nonneg; unfold ez; lia]).
    assert (HY : 0 < Z.pos mb * 2 ^ (eb - ez))
      by (apply Z.mul_pos_pos; [lia|apply Z.pow_pos_nonneg; unfold ez; lia]).
    unfold SFcompare in Hcmp. rewrite pos_compare_cont_Eq in Hcmp.
    destruct sa, sb; cbn [cond_Zopp]; try discriminate Hcmp; try lia.
    - destruct (Z.compare_spec ea eb) as [E|E|E]; try discriminate Hcmp.
      + subst eb. destruct (Z.compare_spec (Z.pos ma) (Z.pos mb)) as [M|M|M];
          try discriminate Hcmp.
        unfold ez. rewrite Z.min_id, Z.sub_diag. change (2 ^ 0) with 1. lia.
      + pose proof (@aligned_lt ma mb ea eb Ha Hb E) as Hlt.
        unfold ez. rewrite (Z.min_comm eb ea). lia.
    - destruct (Z.compare_spec ea eb) as [E|E|E]; try discriminate Hcmp.
      + subst eb. destruct (Z.compare_spec (Z.pos ma) (Z.pos mb)) as [M|M|M];
          try discriminate Hcmp.
        unfold ez. rewrite Z.min_id, Z.sub_diag. change (2 ^ 0) with 1. lia.
      + pose proof (@aligned_lt mb ma eb ea Hb Ha E) as Hlt.
        unfold ez. lia. }
  destruct (cond_Zopp sb (Z.pos mb * 2 ^ (eb - ez))
            - cond_Zopp sa (Z.pos ma * 2 ^ (ea - ez))) as [|c|c]; try lia.
  cbn [binary_normalize].
  apply SF_signed_negative, binary_round_signed. unfold ez. lia.
Qed.

(** When [a] compares greater than [b], the subtraction [b - a] is
    negative. *)
Lemma SFsub_negative (u v : spec_float) :
  valid_binary u = true -> valid_binary v = true ->
  SFcompare u v = Some Gt ->
  SFltb (SF64sub v u) (S754_zero false) = true.
Proof.
  intros Hu Hv Hcmp.
  destruct u as [su|su| |su mu eu]; destruct v as [sv|sv| |sv mv ev];
    try discriminate Hcmp;
    try (destruct su; try discriminate Hcmp; destruct sv; try discriminate Hcmp; reflexivity);
    try (destruct su; try discriminate Hcmp; reflexivity);
    try (destruct sv; try discriminate Hcmp; reflexivity).
  apply SFsub_finite_negative; assumption.
Qed.

End FloatRounding.

Section FloatOrder.

Open Scope float_scope.

Lemma is_nan_SF (a : float) :
  is_nan a = match Prim2SF a with S754_nan => true | _ => false end.
Proof.
  unfold is_nan. rewrite eqb_spec. unfold SFeqb, SFcompare.
  destruct (Prim2SF a) as [s|s| |s m e]; try (destruct s; reflexivity); try reflexivity.
  rewrite Z.compare_refl, Pos.compare_cont_refl. destruct s; reflexivity.
Qed.

(** On numbers, the comparator [(a, b) => a - b] agrees with the order:
    if [b - a] is not negative then [a <= b]. *)
Lemma sub_not_negative_leb (a b : float) :
  is_nan a = false -> is_nan b = false ->
  (b - a <? 0) = false -> (a <=? b) = true.
Proof.
  rewrite !is_nan_SF, ltb_spec, leb_spec, sub_spec.
  change (Prim2SF 0) with (S754_zero false).
  pose proof (Prim2SF_valid a) as Va. pose proof (Prim2SF_valid b) as Vb.
  intros Ha Hb Hsub. unfold SFleb.
  destruct (SFcompare (Prim2SF a) (Prim2SF b)) as [[| |]|] eqn:Hcmp; try reflexivity.
  - rewrite (SFsub_negative _ _ Va Vb Hcmp) in Hsub. discriminate.
  - destruct (Prim2SF a) as [sa|sa| |sa ma ea]; try discriminate Ha;
      destruct (Prim2SF b) as [sb|sb| |sb mb eb]; try discriminate Hb;
      discriminate Hcmp.
Qed.

End FloatOrder.

(** ** Integers held exactly: array lengths and the quartile indices *)

Section FloatIntegers.

Open Scope Z_scope.

(** [p] shifted left by [k] binary digits. *)
Definition shl (p : positive) (k : nat) : positive := Nat.iter k xO p.

Lemma shl_S (p : positive) (k : nat) : shl p (S k) = xO (shl p k).
Proof. reflexivity. Qed.

Lemma shl_val (p : positive) (k : nat) : Z.pos (shl p k) = Z.pos p * 2 ^ Z.of_nat k.
Proof.
  induction k as [|k IH]; [simpl; lia|].
  rewrite shl_S, Pos2Z.inj_xO, IH.
  rewrite Nat2Z.inj_succ, Z.pow_succ_r by lia. lia.
Qed.

Lemma shl_digits (p : positive) (k : nat) :
  Z.pos (digits2_pos (shl p k)) = Z.pos (digits2_pos p) + Z.of_nat k.
Proof.
  induction k as [|k IH]; [simpl; lia|].
  rewrite shl_S. cbn [digits2_pos]. rewrite Pos2Z.inj_succ, IH. lia.
Qed.

Lemma shl_add (p : positive) (a b : nat) : shl (shl p a) b = shl p (a + b).
Proof.
  unfold shl. rewrite Nat.add_comm. symmetry. apply Nat.iter_add.
Qed.

Lemma iter_xO_shl (p k : positive) : Pos.iter xO p k = shl p (Pos.to_nat k).
Proof. unfold shl. apply Pos2Nat.inj_iter. Qed.

(** Shifting out the zeros that a left shift brought in is exact. *)
Lemma shr_shl_exact (q : positive) (n : nat) :
  Nat.iter n shr_1 (Build_shr_record (Z.pos (shl q n)) false false)
  = Build_shr_record (Z.pos q) false false.
Proof.
  induction n as [|n IH]; [reflexivity|].
  rewrite Nat.iter_succ_r, shl_S. cbn [shr_1 orb]. exact IH.
Qed.

Lemma shr_exact (q : positive) (n : nat) (e : Z) :
  shr (Build_shr_record (Z.pos (shl q n)) false false) e (Z.of_nat n)
  = (Build_shr_record (Z.pos q) false false, e + Z.of_nat n).
Proof.
  unfold shr. destruct n as [|n].
  - simpl. rewrite Z.add_0_r. reflexivity.
  - cbn [Z.of_nat]. rewrite iter_pos_iter, Pos2Nat.inj_iter.
    rewrite SuccNat2Pos.id_succ.
    change (nat_rect (fun _ => shr_record) ?x (fun _ => shr_1) (S n))
      with (Nat.iter (S n) shr_1 x).
    rewrite shr_shl_exact. reflexivity.
Qed.

(** A mantissa that is a 53-digit number followed by zeros, at an exponent
    of the format, rounds to that number exactly. *)
Lemma binary_round_aux_exact (s : bool) (q : positive) (n : nat) (e : Z) :
  Z.pos (digits2_pos q) = 53 ->
  emin <= e + Z.of_nat n -> e + Z.of_nat n <= 971 ->
  binary_round_aux prec emax s (Z.pos (shl q n)) e loc_Exact
  = S754_finite s q (e + Z.of_nat n).
Proof.
  intros Hq Hlo Hhi.
  unfold binary_round_aux, shr_fexp. cbn [Zdigits2 shr_record_of_loc].
  rewrite shl_digits, Hq.
  replace (fexp prec emax (53 + Z.of_nat n + e) - e) with (Z.of_nat n)
    by (unfold fexp, SpecFloat.emin, prec, emax in *; lia).
  rewrite shr_exact.
  cbn [shr_m shr_r shr_s loc_of_shr_record round_nearest_even Zdigits2 shr_record_of_loc].
  rewrite Hq.
  replace (fexp prec emax (53 + (e + Z.of_nat n)) - (e + Z.of_nat n)) with 0
    by (unfold fexp, SpecFloat.emin, prec, emax in *; lia).
  cbn [shr shr_m].
  replace (e + Z.of_nat n <=? emax - prec) with true
    by (symmetry; apply Z.leb_le; unfold prec, emax; lia).
  reflexivity.
Qed.

(** The 53-digit mantissa of a number of at most 53 digits. *)
Definition normal53 (w : positive) : positive :=
  shl w (Z.to_nat (53 - Z.pos (digits2_pos w))).

Lemma normal53_digits (w : positive) :
  Z.pos (digits2_pos w) <= 53 -> Z.pos (digits2_pos (normal53 w)) = 53.
Proof. intros H. unfold normal53. rewrite shl_digits. lia. Qed.

(** Rounding [w · 2^t], for [w] of [d <= 53] digits and a shift [t] that
    brings it to at least 53 digits, returns [w] itself, normalised. *)
Lemma binary_round_aux_shl (s : bool) (w : positive) (t : nat) (e : Z) :
  Z.pos (digits2_pos w) <= 53 ->
  53 - Z.pos (digits2_pos w) <= Z.of_nat t ->
  emin <= e + Z.of_nat t - (53 - Z.pos (digits2_pos w)) ->
  e + Z.of_nat t - (53 - Z.pos (digits2_pos w)) <= 971 ->
  binary_round_aux prec emax s (Z.pos (shl w t)) e loc_Exact
  = S754_finite s (normal53 w) (e + Z.of_nat t - (53 - Z.pos (digits2_pos w))).
Proof.
  intros Hd Ht Hlo Hhi.
  set (a := Z.to_nat (53 - Z.pos (digits2_pos w))).
  replace t with (a + (t - a))%nat by (unfold a; lia).
  rewrite <- shl_add. fold (normal53 w).
  rewrite binary_round_aux_exact.
  - f_equal. unfold a. lia.
  - apply normal53_digits. exact Hd.
  - unfold a in *. lia.
  - unfold a in *. lia.
Qed.

Lemma digits2_pos_le (p : positive) (k : Z) :
  0 <= k -> Z.pos p < 2 ^ k -> Z.pos (digits2_pos p) <= k.
Proof.
  intros Hk Hp. destruct (digits2_pos_bounds p) as [Hlo _].
  destruct (Z.le_gt_cases (Z.pos (digits2_pos p)) k) as [H|H]; [exact H|].
  assert (2 ^ k <= 2 ^ (Z.pos (digits2_pos p) - 1)) by (apply Z.pow_le_mono_r; lia).
  lia.
Qed.

(** Rounding an integer of at most 53 digits at exponent 0 is exact. *)
Lemma binary_round_small (s : bool) (p : positive) :
  Z.pos (digits2_pos p) <= 53 ->
  binary_round prec emax s p 0
  = S754_finite s (normal53 p) (Z.pos (digits2_pos p) - 53).
Proof.
  intros Hd. unfold binary_round, shl_align.
  replace (fexp prec emax (Z.pos (digits2_pos p) + 0))
    with (Z.pos (digits2_pos p) - 53)
    by (unfold fexp, SpecFloat.emin, prec, emax; lia).
  rewrite Z.sub_0_r.
  assert (Hn : normal53 p = shl (normal53 p) 0) by reflexivity.
  destruct (Z.pos (digits2_pos p) - 53) as [|k|k] eqn:Ek; try lia.
  - assert (Hp : normal53 p = p).
    { unfold normal53. replace (53 - Z.pos (digits2_pos p)) with 0 by lia. reflexivity. }
    rewrite <- Hp at 1. rewrite Hn, binary_round_aux_exact.
    + rewrite Z.add_0_r. reflexivity.
    + apply normal53_digits. exact Hd.
    + unfold SpecFloat.emin, prec, emax. simpl. lia.
    + simpl. lia.
  - assert (Hp : Pos.iter xO p k = normal53 p).
    { rewrite iter_xO_shl. unfold normal53. f_equal. lia. }
    rewrite Hp, Hn, binary_round_aux_exact.
    + rewrite Z.add_0_r. reflexivity.
    + apply normal53_digits. exact Hd.
    + unfold SpecFloat.emin, prec, emax. simpl. lia.
    + simpl. lia.
Qed.

(** The integer part of [w / 4], read off the normalised mantissa. *)
Lemma normal53_quarter (w : positive) :
  Z.pos (digits2_pos w) <= 53 ->
  Z.pos (normal53 w) / 2 ^ (- (Z.pos (digits2_pos w) - 55)) = Z.pos w / 4.
Proof.
  intros Hd. unfold normal53. rewrite shl_val.
  rewrite Z2Nat.id by lia.
  replace (- (Z.pos (digits2_pos w) - 55)) with (2 + (53 - Z.pos (digits2_pos w))) by lia.
  rewrite Z.pow_add_r by lia. change (2 ^ 2) with 4.
  apply Z.div_mul_cancel_r; [lia|].
  apply Z.pow_nonzero; lia.
Qed.

Lemma Prim2SF_of_nat (len : nat) :
  (0 < len)%nat -> Z.of_nat len < 2 ^ 53 ->
  Prim2SF (JS.of_nat len)
  = S754_finite false (normal53 (Pos.of_nat len))
                (Z.pos (digits2_pos (Pos.of_nat len)) - 53).
Proof.
  intros Hpos Hlt. unfold JS.of_nat.
  rewrite of_uint63_spec, Uint63.of_Z_spec.
  rewrite Z.mod_small
    by (split; [lia|]; apply Z.lt_trans with (2 ^ 53); [exact Hlt|reflexivity]).
  assert (Hp : Z.of_nat len = Z.pos (Pos.of_nat len)).
  { destruct len as [|len]; [lia|]. rewrite <- Pos.of_nat_succ. reflexivity. }
  rewrite Hp in *. cbn [binary_normalize].
  apply binary_round_small. apply digits2_pos_le; [lia|exact Hlt].
Qed.

(** [Math.floor] of the product of an integer [w · 2^t] held as a
    normalised number and a constant [mc · 2^ec]. *)
Lemma floor_scaled (v c : float) (w wc : positive) (mc : positive) (ec : Z) (t : nat) :
  Prim2SF v = S754_finite false (normal53 w) (Z.pos (digits2_pos w) - 53) ->
  Prim2SF c = S754_finite false mc ec ->
  Z.pos mc = Z.pos wc * 2 ^ Z.of_nat t ->
  Z.of_nat t + ec = -2 ->
  Z.pos (digits2_pos w) <= 53 ->
  Z.pos (digits2_pos (w * wc)) <= 53 ->
  JS.Math_floor (v * c)%float = Z.pos (w * wc) / 4.
Proof.
  intros Hv Hc Hmc Hec Hd HD.
  unfold JS.Math_floor. rewrite mul_spec, Hv, Hc.
  unfold SF64mul, SFmul. cbn [xorb].
  set (a := Z.to_nat (53 - Z.pos (digits2_pos w))).
  assert (Hprod : (normal53 w * mc)%positive = shl (w * wc) (a + t)).
  { apply Pos2Z.inj. rewrite Pos2Z.inj_mul, shl_val, Hmc.
    unfold normal53. fold a. rewrite shl_val, Pos2Z.inj_mul, Nat2Z.inj_add.
    rewrite Z.pow_add_r by lia. ring. }
  rewrite Hprod.
  pose proof (digits2_pos_bounds w) as Bw.
  pose proof (digits2_pos_bounds (w * wc)) as Bwc.
  assert (Hdd : Z.pos (digits2_pos w) <= Z.pos (digits2_pos (w * wc))).
  { destruct (Z.le_gt_cases (Z.pos (digits2_pos w)) (Z.pos (digits2_pos (w * wc))))
      as [H|H]; [exact H|].
    assert (2 ^ Z.pos (digits2_pos (w * wc)) <= 2 ^ (Z.pos (digits2_pos w) - 1))
      by (apply Z.pow_le_mono_r; lia).
    rewrite Pos2Z.inj_mul in Bwc. nia. }
  rewrite binary_round_aux_shl; try (unfold a, SpecFloat.emin, prec, emax; lia).
  replace (Z.pos (digits2_pos w) - 53 + ec + Z.of_nat (a + t)
           - (53 - Z.pos (digits2_pos (w * wc))))
    with (Z.pos (digits2_pos (w * wc)) - 55) by (unfold a; lia).
  replace (0 <=? Z.pos (digits2_pos (w * wc)) - 55) with false
    by (symmetry; apply Z.leb_gt; lia).
  apply normal53_quarter. exact HD.
Qed.

Lemma of_nat_pos (len : nat) : (0 < len)%nat -> Z.pos (Pos.of_nat len) = Z.of_nat len.
Proof.
  destruct len as [|len]; [lia|]. intros _. rewrite <- Pos.of_nat_succ. reflexivity.
Qed.

(** For an array length, [Math.floor(len * 0.25)] is the quotient of
    [len] by 4 and [Math.floor(len * 0.75)] that of [3 · len]. *)
Lemma floor_quarter (len : nat) :
  Z.of_nat len < 2 ^ 32 ->
  Z.to_nat (JS.Math_floor (JS.of_nat len * 0.25)%float) = (len / 4)%nat.
Proof.
  intros Hlt. destruct (Nat.eq_dec len 0) as [->|Hne]; [reflexivity|].
  assert (Hpos : (0 < len)%nat) by lia.
  assert (Hd : Z.pos (digits2_pos (Pos.of_nat len)) <= 32)
    by (apply digits2_pos_le; [lia|rewrite of_nat_pos by exact Hpos; exact Hlt]).
  rewrite (@floor_scaled (JS.of_nat len) 0.25%float (Pos.of_nat len) 1
                         4503599627370496 (-54) 52).
  - rewrite Pos.mul_1_r, of_nat_pos by exact Hpos.
    apply Nat2Z.inj. rewrite Z2Nat.id by (apply Z.div_pos; lia).
    rewrite Nat2Z.inj_div. reflexivity.
  - apply Prim2SF_of_nat; [exact Hpos|].
    apply Z.lt_trans with (2 ^ 32); [exact Hlt|reflexivity].
  - reflexivity.
  - reflexivity.
  - reflexivity.
  - lia.
  - rewrite Pos.mul_1_r. lia.
Qed.

Lemma floor_three_quarters (len : nat) :
  Z.of_nat len < 2 ^ 32 ->
  Z.to_nat (JS.Math_floor (JS.of_nat len * 0.75)%float) = (3 * len / 4)%nat.
Proof.
  intros Hlt. destruct (Nat.eq_dec len 0) as [->|Hne]; [reflexivity|].
  assert (Hpos : (0 < len)%nat) by lia.
  assert (Hd : Z.pos (digits2_pos (Pos.of_nat len)) <= 32)
    by (apply digits2_pos_le; [lia|rewrite of_nat_pos by exact Hpos; exact Hlt]).
  assert (Hd3 : Z.pos (digits2_pos (Pos.of_nat len * 3)) <= 34).
  { apply digits2_pos_le; [lia|].
    rewrite Pos2Z.inj_mul, of_nat_pos by exact Hpos.
    change (2 ^ 34) with (2 ^ 32 * 4). lia. }
  rewrite (@floor_scaled (JS.of_nat len) 0.75%float (Pos.of_nat len) 3
                         6755399441055744 (-53) 51).
  - rewrite Pos2Z.inj_mul, of_nat_pos by exact Hpos.
    replace (Z.of_nat len * 3) with (Z.of_nat (3 * len)) by lia.
    apply Nat2Z.inj. rewrite Z2Nat.id by (apply Z.div_pos; lia).
    rewrite Nat2Z.inj_div. reflexivity.
  - apply Prim2SF_of_nat; [exact Hpos|].
    apply Z.lt_trans with (2 ^ 32); [exact Hlt|reflexivity].
  - reflexivity.
  - reflexivity.
  - reflexivity.
  - lia.
  - lia.
Qed.

End FloatIntegers.

(** ** Sums and list helpers *)

Section Sums.

Open Scope float_scope.

(** [Σ f(p)] over the dataset, accumulated from 0 in input order. *)
Definition sum_over (points : list Point.t) (f : Point.t -> float) : float :=
  fold_left (fun acc p => acc + f p) points 0.

(** A [forEach] that feeds two accumulators computes the two sums. *)
Lemma forEach_two_sums (f g : Point.t -> float) (points : list Point.t) (a b : float) :
  JS.forEach (fun '(u, v) p => (u + f p, v + g p)) points (a, b)
  = (fold_left (fun acc p => acc + f p) points a,
     fold_left (fun acc p => acc + g p) points b).
Proof.
  unfold JS.forEach. revert a b.
  induction points as [|p rest IH]; intros a b; simpl; [reflexivity|].
  apply IH.
Qed.

Lemma sum_over_zero (points : list Point.t) (f : Point.t -> float) :
  (forall p, In p points -> f p = 0) -> sum_over points f = 0.
Proof.
  unfold sum_over. intros H.
  induction points as [|p rest IH]; [reflexivity|].
  cbn [fold_left]. rewrite (H p) by (left; reflexivity).
  change (0 + 0) with 0. apply IH. intros q Hq. apply H. right. exact Hq.
Qed.

End Sums.

Lemma last_cons_default {A : Type} (a d : A) (l : list A) :
  last (a :: l) d = last l a.
Proof.
  revert a d. induction l as [|b l IH]; intros a d; [reflexivity|].
  change (last (a :: b :: l) d) with (last (b :: l) d).
  rewrite (IH b d), (IH b a). reflexivity.
Qed.

Lemma list_snoc_cases {A : Type} (l : list A) :
  l = [] \/ exists init a, l = init ++ [a].
Proof.
  destruct l as [|b l]; [left; reflexivity|right].
  destruct (@exists_last _ (b :: l)) as [init [a E]]; [discriminate|].
  exists init, a. exact E.
Qed.

Lemma nth_last_snoc {A : Type} (init : list A) (a d : A) :
  nth (length (init ++ [a]) - 1) (init ++ [a]) d = a.
Proof.
  rewrite length_app. simpl.
  replace (length init + 1 - 1)%nat with (length init) by lia.
  rewrite app_nth2 by lia. rewrite Nat.sub_diag. reflexivity.
Qed.

(** ** Gradient descent: the run as a list of epochs *)

Section GradientDescent.

Open Scope float_scope.

Variable points : list Point.t.
Variable learningRate : float.

(** [slopeGradient = (2/n)·Σ(prediction_j − y_j)·x_j] at the given
    parameters, with [n] the number of points. *)
Definition slopeGradient_at (slope intercept : float) : float :=
  (2 / JS.of_nat (length points))
  * sum_over points (fun p => (slope * Point.x p + intercept - Point.y p) * Point.x p).

(** [interceptGradient = (2/n)·Σ(prediction_j − y_j)]. *)
Definition interceptGradient_at (slope intercept : float) : float :=
  (2 / JS.of_nat (length points))
  * sum_over points (fun p => slope * Point.x p + intercept - Point.y p).

(** The record of epoch number [k] run from the parameters
    [(slope, intercept)]: both gradients at those parameters, the
    parameters after the step, and the MSE at the new parameters. *)
Definition epoch_record (k : nat) (slope intercept : float) : EpochRecord.t :=
  let sg := slopeGradient_at slope intercept in
  let ig := interceptGradient_at slope intercept in
  let slope' := slope - learningRate * sg in
  let intercept' := intercept - learningRate * ig in
  EpochRecord.mk k slope' intercept' (calculateMSE points slope' intercept') sg ig.

(** At most [remaining] epochs numbered from [k], each run from the
    parameters the one before it recorded; none after a non-finite loss. *)
Fixpoint epochs_from (remaining k : nat) (slope intercept : float)
  : list EpochRecord.t :=
  match remaining with
  | O => []
  | S remaining' =>
      let r := epoch_record k slope intercept in
      r :: (if JS.isFinite (EpochRecord.loss r)
            then epochs_from remaining' (S k)
                             (EpochRecord.slope r) (EpochRecord.intercept r)
            else [])
  end.

Lemma gd_loop_epochs (remaining i : nat) (st : gd_state) :
  gd_loop points learningRate (JS.of_nat (length points)) remaining i st
  = let l := epochs_from remaining (i + 1) (gd_slope st) (gd_intercept st) in
    mk_gd_state (last (map EpochRecord.slope l) (gd_slope st))
                (last (map EpochRecord.intercept l) (gd_intercept st))
                (gd_history st ++ l).
Proof.
  revert i st.
  induction remaining as [|r IH]; intros i st.
  - destruct st; simpl. rewrite app_nil_r. reflexivity.
  - cbn [gd_loop epochs_from].
    rewrite (forEach_two_sums
               (fun p => (gd_slope st * Point.x p + gd_intercept st - Point.y p) * Point.x p)
               (fun p => gd_slope st * Point.x p + gd_intercept st - Point.y p)).
    fold (sum_over points
            (fun p => (gd_slope st * Point.x p + gd_intercept st - Point.y p) * Point.x p)).
    fold (sum_over points
            (fun p => gd_slope st * Point.x p + gd_intercept st - Point.y p)).
    fold (slopeGradient_at (gd_slope st) (gd_intercept st)).
    fold (interceptGradient_at (gd_slope st) (gd_intercept st)).
    cbv zeta.
    fold (epoch_record (i + 1) (gd_slope st) (gd_intercept st)).
    set (r1 := epoch_record (i + 1) (gd_slope st) (gd_intercept st)).
    change (calculateMSE points _ _) with (EpochRecord.loss r1).
    destruct (JS.isFinite (EpochRecord.loss r1)) eqn:Efin; cbn [negb].
    + rewrite IH. cbn [gd_slope gd_intercept gd_history].
      replace (S i + 1)%nat with (S (i + 1)) by lia.
      cbn [map]. rewrite !last_cons_default, <- app_assoc. reflexivity.
    + reflexivity.
Qed.

End GradientDescent.

Section GradientDescentFacts.

Open Scope float_scope.

Variable points : list Point.t.
Variable learningRate : float.

Lemma gradientDescent_history (iterations : nat) (s0 b0 : float) :
  OptimizationRun.history (gradientDescent points learningRate iterations s0 b0)
  = epochs_from points learningRate iterations 1 s0 b0.
Proof.
  unfold gradientDescent. cbn [OptimizationRun.history].
  rewrite gd_loop_epochs. reflexivity.
Qed.

Lemma gradientDescent_final (iterations : nat) (s0 b0 : float) :
  let l := epochs_from points learningRate iterations 1 s0 b0 in
  OptimizationRun.finalSlope (gradientDescent points learningRate iterations s0 b0)
  = last (map EpochRecord.slope l) s0
  /\ OptimizationRun.finalIntercept (gradientDescent points learningRate iterations s0 b0)
     = last (map EpochRecord.intercept l) b0.
Proof.
  unfold gradientDescent.
  cbn [OptimizationRun.finalSlope OptimizationRun.finalIntercept].
  rewrite gd_loop_epochs. split; reflexivity.
Qed.

Lemma gradientDescent_converged (iterations : nat) (s0 b0 : float) :
  let h := OptimizationRun.history (gradientDescent points learningRate iterations s0 b0) in
  OptimizationRun.converged (gradientDescent points learningRate iterations s0 b0)
  = ((0 <? length h)%nat
     && JS.isFinite (EpochRecord.loss (nth (length h - 1) h (EpochRecord.mk 0 0 0 0 0 0)))).
Proof. reflexivity. Qed.

Lemma epochs_from_length (remaining k : nat) (slope intercept : float) :
  (length (epochs_from points learningRate remaining k slope intercept) <= remaining)%nat.
Proof.
  revert k slope intercept.
  induction remaining as [|r IH]; intros k slope intercept; [simpl; lia|].
  cbn [epochs_from].
  set (r1 := epoch_record points learningRate k slope intercept).
  destruct (JS.isFinite (EpochRecord.loss r1)); cbn [length].
  - specialize (IH (S k) (EpochRecord.slope r1) (EpochRecord.intercept r1)). lia.
  - lia.
Qed.

(** A record with a non-finite loss closes the list. *)
Lemma epochs_from_stop (remaining k : nat) (slope intercept : float)
      (j : nat) (rec : EpochRecord.t) :
  nth_error (epochs_from points learningRate remaining k slope intercept) j = Some rec ->
  JS.isFinite (EpochRecord.loss rec) = false ->
  length (epochs_from points learningRate remaining k slope intercept) = S j.
Proof.
  revert k slope intercept j.
  induction remaining as [|r IH]; intros k slope intercept j Hj Hnf.
  - destruct j; discriminate.
  - cbn [epochs_from] in *.
    destruct j as [|j]; cbn [nth_error] in Hj.
    + injection Hj as <-. rewrite Hnf. reflexivity.
    + set (r1 := epoch_record points learningRate k slope intercept) in *.
      destruct (JS.isFinite (EpochRecord.loss r1)).
      * cbn [length]. f_equal. eapply IH; eassumption.
      * destruct j; discriminate.
Qed.

(** The parameters an epoch starts from: the initial ones for the first
    epoch, otherwise those the previous record holds. *)
Definition params_before (s0 b0 : float) (history : list EpochRecord.t) (j : nat)
  : float * float :=
  match j with
  | O => (s0, b0)
  | S j' =>
      let r := nth j' history (EpochRecord.mk 0 0 0 0 0 0) in
      (EpochRecord.slope r, EpochRecord.intercept r)
  end.

Lemma epochs_from_nth (remaining k : nat) (slope intercept : float)
      (j : nat) (rec : EpochRecord.t) :
  let l := epochs_from points learningRate remaining k slope intercept in
  nth_error l j = Some rec ->
  rec = epoch_record points learningRate (k + j)
                     (fst (params_before slope intercept l j))
                     (snd (params_before slope intercept l j)).
Proof.
  revert k slope intercept j.
  induction remaining as [|r IH]; intros k slope intercept j l Hj; subst l.
  - destruct j; discriminate.
  - cbn [epochs_from] in *.
    destruct j as [|j]; cbn [nth_error] in Hj.
    + injection Hj as <-. rewrite Nat.add_0_r. reflexivity.
    + set (r1 := epoch_record points learningRate k slope intercept) in *.
      destruct (JS.isFinite (EpochRecord.loss r1)).
      * apply IH in Hj. rewrite Hj at 1.
        replace (S k + j)%nat with (k + S j)%nat by lia.
        destruct j as [|j]; reflexivity.
      * destruct j; discriminate.
Qed.

(** With no point, [(2/n)·Σ] is [Infinity·0]: every epoch records NaN
    parameters and the loss 0 of the empty dataset, so no epoch stops
    the run. *)
Lemma epoch_record_empty (lr : float) (k : nat) (slope intercept : float) :
  epoch_record [] lr k slope intercept = EpochRecord.mk k nan nan 0 nan nan.
Proof.
  unfold epoch_record, slopeGradient_at, interceptGradient_at, sum_over.
  cbn [fold_left length].
  change (2 / JS.of_nat 0 * 0) with nan.
  cbv zeta. rewrite !mul_nan_r, !sub_nan_r. reflexivity.
Qed.

Lemma epochs_from_empty (lr : float) (remaining k : nat) (slope intercept : float) :
  epochs_from [] lr remaining k slope intercept
  = map (fun j => EpochRecord.mk j nan nan 0 nan nan) (seq k remaining).
Proof.
  revert k slope intercept.
  induction remaining as [|r IH]; intros k slope intercept; [reflexivity|].
  cbn [epochs_from seq map]. rewrite epoch_record_empty.
  cbn [EpochRecord.loss EpochRecord.slope EpochRecord.intercept].
  change (JS.isFinite 0) with true. cbv iota.
  rewrite IH. reflexivity.
Qed.

End GradientDescentFacts.

(** ** Gradient descent: the claims *)

Section GradientDescentClaims.

Open Scope float_scope.

(** The dataset of the end-to-end scenario, [(1,2), (2,4), (3,6), (4,8)]. *)
Definition sample_points : list Point.t :=
  [Point.mk 1 2; Point.mk 2 4; Point.mk 3 6; Point.mk 4 8].

(** The default learning rate, the binary64 value of the literal [0.01]. *)
Definition default_learningRate : float := 0x1.47ae147ae147bp-7.

(** The half of C1 the code has: with [iterations = 0] no epoch runs and
    the initial parameters come back, for every dataset. *)
Lemma gradientDescent_zero_iterations (points : list Point.t) (lr s0 b0 : float) :
  gradientDescent points lr 0 s0 b0 = OptimizationRun.mk s0 b0 [] false.
Proof. reflexivity. Qed.

(** On the empty dataset every run of at least one epoch ends on NaN
    parameters, runs all its epochs and reports [converged = true],
    whatever the learning rate and the initial parameters. *)
Lemma gradientDescent_empty_dataset (lr : float) (iterations : nat) (s0 b0 : float) :
  let run := gradientDescent [] lr (S iterations) s0 b0 in
  OptimizationRun.finalSlope run = nan
  /\ OptimizationRun.finalIntercept run = nan
  /\ length (OptimizationRun.history run) = S iterations
  /\ OptimizationRun.converged run = true.
Proof.
  intros run.
  assert (Hh : OptimizationRun.history run
               = map (fun j => EpochRecord.mk j nan nan 0 nan nan) (seq 1 (S iterations))).
  { unfold run. rewrite gradientDescent_history. apply epochs_from_empty. }
  destruct (gradientDescent_final [] lr (S iterations) s0 b0) as [Hs Hb].
  cbv zeta in Hs, Hb. rewrite epochs_from_empty in Hs, Hb.
  rewrite map_map in Hs, Hb. cbn [EpochRecord.slope EpochRecord.intercept] in Hs, Hb.
  assert (Hlast : forall (d : float) n k, last (map (fun _ : nat => nan) (seq k (S n))) d = nan).
  { intros d n. revert d. induction n as [|n IHn]; intros d k; [reflexivity|].
    change (seq k (S (S n))) with (k :: seq (S k) (S n)).
    cbn [map]. rewrite last_cons_default. apply IHn. }
  repeat split.
  - fold run in Hs. rewrite Hs. apply Hlast.
  - fold run in Hb. rewrite Hb. apply Hlast.
  - rewrite Hh, length_map, length_seq. reflexivity.
  - unfold run. rewrite gradientDescent_converged. cbv zeta. fold run. rewrite Hh.
    rewrite length_map, length_seq.
    change (0 <? S iterations)%nat with true. cbn [andb].
    replace (S iterations - 1)%nat with iterations by lia.
    set (f := fun j : nat => EpochRecord.mk j nan nan 0 nan nan).
    rewrite (nth_indep _ _ (f 0%nat)) by (rewrite length_map, length_seq; lia).
    rewrite map_nth. reflexivity.
Qed.

(** C1 (code bug).  The claim: on the empty dataset [gradientDescent]
    returns the initial slope and intercept.  The code at the empty
    dataset with the default learning rate, one iteration and initial
    parameters 0, 0: [n = 0], so both gradients are [(2/0)·0 = NaN], the
    returned slope and intercept are NaN instead of the initial 0, and
    the run reports [converged = true]. *)
Theorem gradientDescent_empty_dataset_one_epoch :
  gradientDescent [] default_learningRate 1 0 0
  = OptimizationRun.mk nan nan [EpochRecord.mk 1 nan nan 0 nan nan] true.
Proof. vm_compute. reflexivity. Qed.

(** C2.  [converged] is true exactly when the history is non-empty and
    its last record has a finite loss; a record with a non-finite loss is
    not an error: it is the last record of the history and the run
    reports [converged = false]. *)
Theorem gradientDescent_converged_iff
        (points : list Point.t) (lr : float) (iterations : nat) (s0 b0 : float) :
  (OptimizationRun.converged (gradientDescent points lr iterations s0 b0) = true
   <-> exists init rec,
         OptimizationRun.history (gradientDescent points lr iterations s0 b0)
         = init ++ [rec]
         /\ JS.isFinite (EpochRecord.loss rec) = true)
  /\ (forall rec,
         In rec (OptimizationRun.history (gradientDescent points lr iterations s0 b0)) ->
         JS.isFinite (EpochRecord.loss rec) = false ->
         OptimizationRun.converged (gradientDescent points lr iterations s0 b0) = false
         /\ exists init,
             OptimizationRun.history (gradientDescent points lr iterations s0 b0)
             = init ++ [rec]).
Proof.
  rewrite gradientDescent_converged. cbv zeta.
  set (h := OptimizationRun.history (gradientDescent points lr iterations s0 b0)).
  assert (Hiff : ((0 <? length h)%nat
                  && JS.isFinite (EpochRecord.loss
                                    (nth (length h - 1) h (EpochRecord.mk 0 0 0 0 0 0)))
                  = true)
                 <-> exists init rec, h = init ++ [rec]
                                      /\ JS.isFinite (EpochRecord.loss rec) = true).
  { destruct (list_snoc_cases h) as [E | [init [a E]]]; rewrite E.
    - split; [discriminate|]. intros [init [rec [E' _]]].
      destruct init; discriminate.
    - rewrite nth_last_snoc.
      replace (0 <? length (init ++ [a]))%nat with true
        by (symmetry; apply Nat.ltb_lt; rewrite length_app; simpl; lia).
      cbn [andb]. split.
      + intros H. exists init, a. split; [reflexivity|exact H].
      + intros [init' [rec [E' H]]].
        apply app_inj_tail in E'. destruct E' as [_ <-]. exact H. }
  split; [exact Hiff|].
  intros rec Hin Hnf.
  apply In_nth_error in Hin. destruct Hin as [j Hj].
  assert (Hlen : length h = S j).
  { unfold h in *. rewrite gradientDescent_history in *.
    eapply epochs_from_stop; eassumption. }
  assert (Hlast : exists init, h = init ++ [rec]).
  { destruct (list_snoc_cases h) as [E | [init [a E]]].
    - rewrite E in Hlen. discriminate.
    - exists init. rewrite E in Hj, Hlen |- *.
      rewrite length_app in Hlen. simpl in Hlen.
      rewrite nth_error_app2 in Hj by lia.
      replace (j - length init)%nat with 0%nat in Hj by lia.
      injection Hj as ->. reflexivity. }
  split; [|exact Hlast].
  destruct Hlast as [init E].
  apply not_true_is_false. intros Hc. apply Hiff in Hc.
  destruct Hc as [init' [rec' [E' Hf]]].
  rewrite E in E'. apply app_inj_tail in E'. destruct E' as [_ <-].
  congruence.
Qed.

(** C3.  The history never has more records than the iterations asked
    for, and a record whose loss is not finite is the last one: it is
    recorded, and no epoch follows it. *)
Theorem gradientDescent_history_bounded
        (points : list Point.t) (lr : float) (iterations : nat) (s0 b0 : float) :
  (length (OptimizationRun.history (gradientDescent points lr iterations s0 b0))
   <= iterations)%nat
  /\ (forall k rec,
         nth_error (OptimizationRun.history (gradientDescent points lr iterations s0 b0)) k
         = Some rec ->
         JS.isFinite (EpochRecord.loss rec) = false ->
         length (OptimizationRun.history (gradientDescent points lr iterations s0 b0))
         = S k).
Proof.
  rewrite gradientDescent_history. split.
  - apply epochs_from_length.
  - intros k rec Hk Hnf. eapply epochs_from_stop; eassumption.
Qed.

End GradientDescentClaims.

Section GradientDescentEpochs.

Open Scope float_scope.

(** What the record [rec] of the epoch at position [k] of [history] holds,
    in the words of the specification: [epoch] counts from 1; the two
    gradients are [(2/n)·Σ(prediction_j − y_j)·x_j] and
    [(2/n)·Σ(prediction_j − y_j)], the predictions taken at the
    parameters before the update; the recorded slope and intercept are
    those parameters minus [learningRate] times the gradients; the loss
    is the MSE at the recorded parameters. *)
Definition epoch_update_spec (points : list Point.t) (learningRate s0 b0 : float)
           (history : list EpochRecord.t) (k : nat) (rec : EpochRecord.t) : Prop :=
  let slope := fst (params_before s0 b0 history k) in
  let intercept := snd (params_before s0 b0 history k) in
  let n := JS.of_nat (length points) in
  EpochRecord.epoch rec = (k + 1)%nat
  /\ EpochRecord.slopeGradient rec
     = (2 / n) * sum_over points
                   (fun p => (slope * Point.x p + intercept - Point.y p) * Point.x p)
  /\ EpochRecord.interceptGradient rec
     = (2 / n) * sum_over points
                   (fun p => slope * Point.x p + intercept - Point.y p)
  /\ EpochRecord.slope rec = slope - learningRate * EpochRecord.slopeGradient rec
  /\ EpochRecord.intercept rec
     = intercept - learningRate * EpochRecord.interceptGradient rec
  /\ EpochRecord.loss rec
     = calculateMSE points (EpochRecord.slope rec) (EpochRecord.intercept rec).

(** C4.  Every recorded epoch of a run, on every dataset and so on every
    non-empty one, is the update of the specification: gradients from the
    parameters before the update, both parameters moved together, and
    the record holding the new parameters, their MSE, the gradients and
    the epoch number counted from 1. *)
Theorem gradientDescent_epoch_update
        (points : list Point.t) (lr : float) (iterations : nat) (s0 b0 : float)
        (k : nat) (rec : EpochRecord.t) :
  nth_error (OptimizationRun.history (gradientDescent points lr iterations s0 b0)) k
  = Some rec ->
  epoch_update_spec points lr s0 b0
    (OptimizationRun.history (gradientDescent points lr iterations s0 b0)) k rec.
Proof.
  rewrite gradientDescent_history. intros Hk.
  apply epochs_from_nth in Hk.
  unfold epoch_update_spec. cbv zeta.
  set (slope := fst (params_before s0 b0 _ k)) in *.
  set (intercept := snd (params_before s0 b0 _ k)) in *.
  rewrite Hk. unfold epoch_record, slopeGradient_at, interceptGradient_at.
  cbn [EpochRecord.epoch EpochRecord.slope EpochRecord.intercept EpochRecord.loss
       EpochRecord.slopeGradient EpochRecord.interceptGradient].
  repeat split. lia.
Qed.

(** A run of three epochs on the sample dataset and its second record. *)
Definition sample_run : OptimizationRun.t :=
  gradientDescent sample_points 0.0625 3 0 0.

Definition sample_second_epoch : EpochRecord.t :=
  Eval vm_compute in nth 1 (OptimizationRun.history sample_run) (EpochRecord.mk 0 0 0 0 0 0).

Lemma gradientDescent_epoch_update_witness :
  nth_error (OptimizationRun.history (gradientDescent sample_points 0.0625 3 0 0)) 1
  = Some sample_second_epoch
  /\ epoch_update_spec sample_points 0.0625 0 0
       (OptimizationRun.history (gradientDescent sample_points 0.0625 3 0 0))
       1 sample_second_epoch.
Proof.
  split.
  - vm_compute. reflexivity.
  - apply (@gradientDescent_epoch_update sample_points 0.0625 3 0 0 1 sample_second_epoch).
    vm_compute. reflexivity.
Defined.

(** A diverging run: with learning rate 10 the sample dataset overflows in
    its 69th epoch; the run stops there, short of the 100 iterations, and
    reports [converged = false]. *)
Example gradientDescent_divergence :
  let run := gradientDescent sample_points 10 100 0 0 in
  length (OptimizationRun.history run) = 69%nat
  /\ OptimizationRun.converged run = false
  /\ map (fun r => JS.isFinite (EpochRecord.loss r))
         (skipn 67 (OptimizationRun.history run)) = [true; false].
Proof. vm_compute. repeat split. Qed.

(** The diverging run instantiates C2 and C3: its 69th record has a
    non-finite loss, so the history has 69 records and [converged] is
    false. *)
Lemma gradientDescent_converged_iff_witness :
  OptimizationRun.converged (gradientDescent sample_points 10 100 0 0) = false.
Proof.
  eapply (proj2 (gradientDescent_converged_iff sample_points 10 100 0 0)).
  - apply nth_error_In with (n := 68%nat). vm_compute. reflexivity.
  - vm_compute. reflexivity.
Defined.

Lemma gradientDescent_history_bounded_witness :
  length (OptimizationRun.history (gradientDescent sample_points 10 100 0 0)) = 69%nat.
Proof.
  eapply (proj2 (gradientDescent_history_bounded sample_points 10 100 0 0)).
  - vm_compute. reflexivity.
  - vm_compute. reflexivity.
Defined.

End GradientDescentEpochs.

(** ** Least-squares fit and the normal equation *)

Section Fit.

Open Scope float_scope.

(** [meanX], [meanY]: the arithmetic means. *)
Definition mean_x (points : list Point.t) : float :=
  sum_over points Point.x / JS.of_nat (length points).

Definition mean_y (points : list Point.t) : float :=
  sum_over points Point.y / JS.of_nat (length points).

(** [Σ(x_i − meanX)(y_i − meanY)] and [Σ(x_i − meanX)²]. *)
Definition fit_numerator (points : list Point.t) : float :=
  sum_over points
           (fun p => (Point.x p - mean_x points) * (Point.y p - mean_y points)).

Definition fit_denominator (points : list Point.t) : float :=
  sum_over points (fun p => JS.sq (Point.x p - mean_x points)).

(** The slope of the specification: the quotient, or 0 when the
    denominator is exactly zero. *)
Definition fit_slope (points : list Point.t) : float :=
  if fit_denominator points =? 0 then 0
  else fit_numerator points / fit_denominator points.

(** All x are equal: each is a finite number equal to the mean. *)
Definition all_x_equal (points : list Point.t) : Prop :=
  forall p, In p points ->
            PrimFloat.is_finite (Point.x p) = true
            /\ (Point.x p =? mean_x points) = true.

Lemma fit_denominator_all_x_equal (points : list Point.t) :
  all_x_equal points -> fit_denominator points = 0 /\ fit_slope points = 0.
Proof.
  intros H.
  assert (Hd : fit_denominator points = 0).
  { apply sum_over_zero. intros p Hp. destruct (H p Hp) as [Hfin Heq].
    apply sq_sub_eq_zero; assumption. }
  split; [exact Hd|]. unfold fit_slope. rewrite Hd. reflexivity.
Qed.

(** C5.  Fewer than two points give the zero result with no predictions
    (and no means); two or more give the least-squares slope, 0 when the
    denominator is exactly zero (as it is when all x equal the mean), the
    intercept [meanY − slope·meanX] and one prediction
    [slope·x + intercept] per point, in input order. *)
Theorem calculateLinearRegression_spec (points : list Point.t) :
  ((length points < 2)%nat ->
   calculateLinearRegression points = FitResult.mk 0 0 [] None None)
  /\ ((2 <= length points)%nat ->
      FitResult.slope (calculateLinearRegression points)
      = (if fit_denominator points =? 0 then 0
         else fit_numerator points / fit_denominator points)
      /\ FitResult.intercept (calculateLinearRegression points)
         = mean_y points - FitResult.slope (calculateLinearRegression points) * mean_x points
      /\ FitResult.predictions (calculateLinearRegression points)
         = map (fun p => Prediction.mk
                           (Point.x p) (Point.y p)
                           (FitResult.slope (calculateLinearRegression points) * Point.x p
                            + FitResult.intercept (calculateLinearRegression points)))
               points
      /\ FitResult.meanX (calculateLinearRegression points) = Some (mean_x points)
      /\ FitResult.meanY (calculateLinearRegression points) = Some (mean_y points)
      /\ (all_x_equal points ->
          FitResult.slope (calculateLinearRegression points) = 0)).
Proof.
  unfold calculateLinearRegression. split; intros Hlen.
  - apply Nat.ltb_lt in Hlen. rewrite Hlen. reflexivity.
  - apply Nat.ltb_ge in Hlen. rewrite Hlen.
    unfold JS.reduce.
    change (fold_left (fun acc p => acc + Point.x p) points 0)
      with (sum_over points Point.x).
    change (fold_left (fun acc p => acc + Point.y p) points 0)
      with (sum_over points Point.y).
    fold (mean_x points). fold (mean_y points).
    rewrite (forEach_two_sums
               (fun p => (Point.x p - mean_x points) * (Point.y p - mean_y points))
               (fun p => JS.sq (Point.x p - mean_x points))).
    fold (sum_over points
            (fun p => (Point.x p - mean_x points) * (Point.y p - mean_y points))).
    fold (sum_over points (fun p => JS.sq (Point.x p - mean_x points))).
    fold (fit_numerator points). fold (fit_denominator points).
    unfold JS.strict_ne.
    assert (Hs : (if negb (fit_denominator points =? 0)
                  then fit_numerator points / fit_denominator points else 0)
                 = fit_slope points).
    { unfold fit_slope. destruct (fit_denominator points =? 0); reflexivity. }
    rewrite Hs.
    cbn [FitResult.slope FitResult.intercept FitResult.predictions
         FitResult.meanX FitResult.meanY].
    split; [reflexivity|]. split; [reflexivity|]. split; [reflexivity|].
    split; [reflexivity|]. split; [reflexivity|].
    intros Hx. apply fit_denominator_all_x_equal. exact Hx.
Qed.

(** The end-to-end scenario: the sample dataset lies on [y = 2x]. *)
Example calculateLinearRegression_sample :
  FitResult.slope (calculateLinearRegression sample_points) = 2
  /\ FitResult.intercept (calculateLinearRegression sample_points) = 0
  /\ length (FitResult.predictions (calculateLinearRegression sample_points)) = 4%nat.
Proof. vm_compute. repeat split. Qed.

(** All x equal: the denominator is exactly zero and the slope is 0. *)
Example calculateLinearRegression_vertical :
  calculateLinearRegression [Point.mk 1 1; Point.mk 1 3]
  = FitResult.mk 0 2 [Prediction.mk 1 1 2; Prediction.mk 1 3 2] (Some 1) (Some 2).
Proof. vm_compute. reflexivity. Qed.

(** Two points above each other: all x equal the mean. *)
Definition vertical_points : list Point.t := [Point.mk 1 1; Point.mk 1 3].

Lemma calculateLinearRegression_spec_witness :
  (2 <= length vertical_points)%nat
  /\ all_x_equal vertical_points
  /\ FitResult.slope (calculateLinearRegression vertical_points) = 0
  /\ FitResult.intercept (calculateLinearRegression vertical_points)
     = mean_y vertical_points
       - FitResult.slope (calculateLinearRegression vertical_points)
         * mean_x vertical_points.
Proof.
  assert (H : (2 <= length vertical_points)%nat) by (simpl; lia).
  assert (Hx : all_x_equal vertical_points).
  { intros p Hp. simpl in Hp.
    repeat (destruct Hp as [<-|Hp]; [vm_compute; split; reflexivity|]).
    destruct Hp. }
  destruct (proj2 (calculateLinearRegression_spec vertical_points) H)
    as [_ [Hi [_ [_ [_ H0]]]]].
  split; [exact H|]. split; [exact Hx|]. split; [exact (H0 Hx)|exact Hi].
Defined.

(** C10.  [normalEquation] is [calculateLinearRegression]: the two return
    the same result (slope, intercept, predictions and means) on every
    dataset. *)
Theorem normalEquation_is_calculateLinearRegression (points : list Point.t) :
  normalEquation points = calculateLinearRegression points.
Proof. reflexivity. Qed.

End Fit.

(** ** Error metrics *)

Section Metrics.

Open Scope float_scope.

(** [SS_res = Σ(y_i − predicted_i)²] and [SS_tot = Σ(y_i − meanY)²]. *)
Definition ss_res (points : list Point.t) (slope intercept : float) : float :=
  sum_over points (fun p => JS.sq (Point.y p - (slope * Point.x p + intercept))).

Definition ss_tot (points : list Point.t) : float :=
  sum_over points (fun p => JS.sq (Point.y p - mean_y points)).

Lemma calculateR2_unfold (points : list Point.t) (slope intercept : float) :
  calculateR2 points slope intercept
  = if (length points <? 2)%nat then 0
    else if ss_tot points =? 0 then 0
         else 1 - ss_res points slope intercept / ss_tot points.
Proof. reflexivity. Qed.

(** The points lie exactly on the line: each [y] is a finite number equal
    to the prediction [slope·x + intercept]. *)
Definition on_line (points : list Point.t) (slope intercept : float) : Prop :=
  forall p, In p points ->
            PrimFloat.is_finite (Point.y p) = true
            /\ (Point.y p =? slope * Point.x p + intercept) = true.

(** C6.  [calculateR2] is 0 for fewer than two points and when [SS_tot]
    is zero, and [1 − SS_res/SS_tot] otherwise; with at least two points
    exactly on the line and a positive [SS_tot] (y has non-zero
    variance) it is exactly 1. *)
Theorem calculateR2_spec (points : list Point.t) (slope intercept : float) :
  ((length points < 2)%nat -> calculateR2 points slope intercept = 0)
  /\ ((ss_tot points =? 0) = true -> calculateR2 points slope intercept = 0)
  /\ ((2 <= length points)%nat -> (ss_tot points =? 0) = false ->
      calculateR2 points slope intercept
      = 1 - ss_res points slope intercept / ss_tot points)
  /\ ((2 <= length points)%nat -> on_line points slope intercept ->
      (0 <? ss_tot points) = true ->
      calculateR2 points slope intercept = 1).
Proof.
  rewrite calculateR2_unfold.
  repeat split.
  - intros Hlen. apply Nat.ltb_lt in Hlen. rewrite Hlen. reflexivity.
  - intros Hz. rewrite Hz. destruct (length points <? 2)%nat; reflexivity.
  - intros Hlen Hz. apply Nat.ltb_ge in Hlen. rewrite Hlen, Hz. reflexivity.
  - intros Hlen Hline Hpos. apply Nat.ltb_ge in Hlen. rewrite Hlen.
    destruct (one_minus_zero_over_pos Hpos) as [Hz Hone].
    rewrite Hz.
    assert (Hres : ss_res points slope intercept = 0).
    { apply sum_over_zero. intros p Hp. destruct (Hline p Hp) as [Hfin Heq].
      apply sq_sub_eq_zero; assumption. }
    rewrite Hres. exact Hone.
Qed.

(** The end-to-end scenario: on the sample dataset the line [y = 2x] has
    R² exactly 1; a dataset constant in y has R² 0. *)
Example calculateR2_sample :
  on_line sample_points 2 0
  /\ (0 <? ss_tot sample_points) = true
  /\ calculateR2 sample_points 2 0 = 1
  /\ calculateR2 [Point.mk 1 5; Point.mk 2 5; Point.mk 3 5] 1 0 = 0.
Proof.
  split; [|vm_compute; repeat split].
  intros p Hp. simpl in Hp.
  repeat (destruct Hp as [<-|Hp]; [vm_compute; split; reflexivity|]).
  destruct Hp.
Qed.

Lemma calculateR2_spec_witness :
  (2 <= length sample_points)%nat
  /\ on_line sample_points 2 0
  /\ (0 <? ss_tot sample_points) = true
  /\ calculateR2 sample_points 2 0 = 1.
Proof.
  assert (Hlen : (2 <= length sample_points)%nat) by (simpl; lia).
  assert (Hline : on_line sample_points 2 0).
  { intros p Hp. simpl in Hp.
    repeat (destruct Hp as [<-|Hp]; [vm_compute; split; reflexivity|]).
    destruct Hp. }
  assert (Hpos : (0 <? ss_tot sample_points) = true) by (vm_compute; reflexivity).
  split; [exact Hlen|]. split; [exact Hline|]. split; [exact Hpos|].
  exact (proj2 (proj2 (proj2 (calculateR2_spec sample_points 2 0))) Hlen Hline Hpos).
Defined.

(** C7.  [calculateRMSE] is [Math.sqrt] of [calculateMSE] on every input,
    it is never negative, and both are 0 on the empty dataset. *)
Theorem calculateRMSE_is_sqrt_MSE (points : list Point.t) (slope intercept : float) :
  calculateRMSE points slope intercept
  = PrimFloat.sqrt (calculateMSE points slope intercept)
  /\ (calculateRMSE points slope intercept <? 0) = false
  /\ calculateMSE [] slope intercept = 0
  /\ calculateRMSE [] slope intercept = 0.
Proof.
  repeat split.
  unfold calculateRMSE. apply sqrt_not_negative.
Qed.

End Metrics.

(** ** Cost surface *)

Section CostSurfaceGrid.

Open Scope float_scope.

(** A counting loop that pushes one value per round onto each of three
    arrays appends the three images of the counter range. *)
Lemma for_loop_push3 {A B C : Type} (f : nat -> A) (g : nat -> B) (h : nat -> C)
      (count i : nat) (a : list A) (b : list B) (c : list C) :
  JS.for_loop count i
    (fun j '(a, b, c) => (a ++ [f j], b ++ [g j], c ++ [h j])) (a, b, c)
  = (a ++ map f (seq i count), b ++ map g (seq i count), c ++ map h (seq i count)).
Proof.
  revert i a b c.
  induction count as [|count IH]; intros i a b c.
  - simpl. rewrite !app_nil_r. reflexivity.
  - cbn [JS.for_loop seq map]. rewrite IH, <- !app_assoc. reflexivity.
Qed.

(** The slope of row [i] and the intercept of column [j]:
    [range[0] + index · step] with [step = (range[1] − range[0]) / resolution]. *)
Definition vertex_slope (slopeRange : float * float) (resolution i : nat) : float :=
  fst slopeRange
  + JS.of_nat i * ((snd slopeRange - fst slopeRange) / JS.of_nat resolution).

Definition vertex_intercept (interceptRange : float * float) (resolution j : nat) : float :=
  fst interceptRange
  + JS.of_nat j * ((snd interceptRange - fst interceptRange) / JS.of_nat resolution).

(** The [(resolution+1) × (resolution+1)] grid holding [v i j] at vertex [(i, j)]. *)
Definition grid_of (resolution : nat) (v : nat -> nat -> float) : list (list float) :=
  map (fun i => map (fun j => v i j) (seq 0 (S resolution))) (seq 0 (S resolution)).

Lemma generateCostSurface_grids (points : list Point.t)
      (slopeRange interceptRange : float * float) (resolution : nat) :
  generateCostSurface points slopeRange interceptRange resolution
  = CostSurface.mk
      (grid_of resolution (fun i _ => vertex_slope slopeRange resolution i))
      (grid_of resolution (fun _ j => vertex_intercept interceptRange resolution j))
      (grid_of resolution
               (fun i j => calculateMSE points
                             (vertex_slope slopeRange resolution i)
                             (vertex_intercept interceptRange resolution j))).
Proof.
  unfold generateCostSurface.
  set (slopeStep := (snd slopeRange - fst slopeRange) / JS.of_nat resolution).
  set (interceptStep := (snd interceptRange - fst interceptRange) / JS.of_nat resolution).
  set (body := fun (i : nat) '(slopes, intercepts, costs) => _).
  assert (Hbody : forall i (st : grids (list float)),
             body i st
             = (let '(slopes, intercepts, costs) := st in
                (slopes ++ [map (fun _ : nat => vertex_slope slopeRange resolution i)
                                (seq 0 (S resolution))],
                 intercepts ++ [map (fun j => vertex_intercept interceptRange resolution j)
                                    (seq 0 (S resolution))],
                 costs ++ [map (fun j => calculateMSE points
                                           (vertex_slope slopeRange resolution i)
                                           (vertex_intercept interceptRange resolution j))
                               (seq 0 (S resolution))]))).
  { intros i [[slopes intercepts] costs]. unfold body.
    rewrite (for_loop_push3
               (fun _ : nat => fst slopeRange + JS.of_nat i * slopeStep)
               (fun j => fst interceptRange + JS.of_nat j * interceptStep)
               (fun j => calculateMSE points
                           (fst slopeRange + JS.of_nat i * slopeStep)
                           (fst interceptRange + JS.of_nat j * interceptStep))).
    reflexivity. }
  assert (Hloop : forall count i (st : grids (list float)),
             JS.for_loop count i body st
             = JS.for_loop count i
                 (fun i '(slopes, intercepts, costs) =>
                    (slopes ++ [map (fun _ : nat => vertex_slope slopeRange resolution i)
                                    (seq 0 (S resolution))],
                     intercepts ++ [map (fun j => vertex_intercept interceptRange resolution j)
                                        (seq 0 (S resolution))],
                     costs ++ [map (fun j => calculateMSE points
                                               (vertex_slope slopeRange resolution i)
                                               (vertex_intercept interceptRange resolution j))
                                   (seq 0 (S resolution))]))
                 st).
  { induction count as [|count IH]; intros i st; [reflexivity|].
    cbn [JS.for_loop]. rewrite IH, Hbody. destruct st as [[? ?] ?]. reflexivity. }
  rewrite Hloop, for_loop_push3. reflexivity.
Qed.

Lemma grid_of_length (resolution : nat) (v : nat -> nat -> float) :
  length (grid_of resolution v) = (resolution + 1)%nat
  /\ Forall (fun row => length row = (resolution + 1)%nat) (grid_of resolution v).
Proof.
  unfold grid_of. split.
  - rewrite length_map, length_seq. lia.
  - apply Forall_forall. intros row Hrow.
    apply in_map_iff in Hrow. destruct Hrow as [i [<- _]].
    rewrite length_map, length_seq. lia.
Qed.

Lemma grid_of_nth (resolution : nat) (v : nat -> nat -> float) (i j : nat) :
  (i <= resolution)%nat -> (j <= resolution)%nat ->
  nth_error (nth i (grid_of resolution v) []) j = Some (v i j).
Proof.
  intros Hi Hj. unfold grid_of.
  rewrite (nth_indep _ [] (map (fun j => v 0%nat j) (seq 0 (S resolution))))
    by (rewrite length_map, length_seq; lia).
  rewrite (map_nth (fun i => map (fun j => v i j) (seq 0 (S resolution)))).
  rewrite seq_nth by lia.
  rewrite nth_error_map, nth_error_nth' with (d := 0%nat) by (rewrite length_seq; lia).
  rewrite seq_nth by lia. reflexivity.
Qed.

(** The shape of a grid: [resolution + 1] rows of [resolution + 1] entries. *)
Definition grid_shape (resolution : nat) (grid : list (list float)) : Prop :=
  length grid = (resolution + 1)%nat
  /\ Forall (fun row => length row = (resolution + 1)%nat) grid.

(** C8.  The three grids have the same [(resolution+1) × (resolution+1)]
    shape, and vertex [(i, j)] holds the slope
    [slopeRange[0] + i·slopeStep], the intercept
    [interceptRange[0] + j·interceptStep] and the MSE of the dataset at
    that slope and intercept. *)
Theorem generateCostSurface_spec (points : list Point.t)
        (slopeRange interceptRange : float * float) (resolution : nat) :
  grid_shape resolution
    (CostSurface.slopes (generateCostSurface points slopeRange interceptRange resolution))
  /\ grid_shape resolution
       (CostSurface.intercepts (generateCostSurface points slopeRange interceptRange resolution))
  /\ grid_shape resolution
       (CostSurface.costs (generateCostSurface points slopeRange interceptRange resolution))
  /\ forall i j, (i <= resolution)%nat -> (j <= resolution)%nat ->
       nth_error (nth i (CostSurface.slopes
                           (generateCostSurface points slopeRange interceptRange resolution))
                      []) j
       = Some (vertex_slope slopeRange resolution i)
       /\ nth_error (nth i (CostSurface.intercepts
                              (generateCostSurface points slopeRange interceptRange resolution))
                         []) j
          = Some (vertex_intercept interceptRange resolution j)
       /\ nth_error (nth i (CostSurface.costs
                              (generateCostSurface points slopeRange interceptRange resolution))
                         []) j
          = Some (calculateMSE points (vertex_slope slopeRange resolution i)
                               (vertex_intercept interceptRange resolution j)).
Proof.
  rewrite generateCostSurface_grids.
  cbn [CostSurface.slopes CostSurface.intercepts CostSurface.costs].
  unfold grid_shape.
  repeat split; try apply grid_of_length.
  - apply (grid_of_nth (fun i _ => vertex_slope slopeRange resolution i)); assumption.
  - apply (grid_of_nth (fun _ j => vertex_intercept interceptRange resolution j)); assumption.
  - apply (grid_of_nth
             (fun i j => calculateMSE points (vertex_slope slopeRange resolution i)
                           (vertex_intercept interceptRange resolution j))); assumption.
Qed.

(** Resolution 10 yields 11×11 grids; a small surface in full. *)
Example generateCostSurface_resolution_10 :
  length (CostSurface.costs (generateCostSurface sample_points (-2, 2) (-5, 5) 10)) = 11%nat
  /\ map (@length float)
         (CostSurface.costs (generateCostSurface sample_points (-2, 2) (-5, 5) 10))
     = repeat 11%nat 11.
Proof. vm_compute. split; reflexivity. Qed.

Example generateCostSurface_resolution_2 :
  generateCostSurface sample_points (-2, 2) (-5, 5) 2
  = CostSurface.mk [[-2; -2; -2]; [0; 0; 0]; [2; 2; 2]]
                   [[-5; 0; 5]; [-5; 0; 5]; [-5; 0; 5]]
                   [[245; 120; 45]; [105; 30; 5]; [25; 0; 25]].
Proof. vm_compute. reflexivity. Qed.

Lemma generateCostSurface_spec_witness :
  (1 <= 2)%nat /\ (2 <= 2)%nat
  /\ nth_error (nth 1 (CostSurface.costs
                         (generateCostSurface sample_points (-2, 2) (-5, 5) 2)) []) 2
     = Some (calculateMSE sample_points
                          (vertex_slope (-2, 2) 2 1) (vertex_intercept (-5, 5) 2 2)).
Proof.
  assert (Hi : (1 <= 2)%nat) by lia. assert (Hj : (2 <= 2)%nat) by lia.
  split; [exact Hi|]. split; [exact Hj|].
  apply (proj2 (proj2 (proj2 (generateCostSurface_spec sample_points (-2, 2) (-5, 5) 2)))
               1%nat 2%nat Hi Hj).
Defined.

End CostSurfaceGrid.

(** ** The array sort *)

Section ArraySort.

Variable A : Type.
Variable comparefn : A -> A -> float.

(** [b] is not put before [a]: the comparator does not return a negative
    number on [(b, a)]. *)
Definition not_before (a b : A) : Prop := (comparefn b a <? 0)%float = false.

Lemma sort_insert_perm (v : A) (l : list A) :
  Permutation (JS.sort_insert comparefn v l) (v :: l).
Proof.
  induction l as [|e rest IH]; simpl; [reflexivity|].
  destruct (comparefn e v <? 0)%float; [|reflexivity].
  rewrite IH. apply perm_swap.
Qed.

Lemma sort_perm (l : list A) : Permutation (JS.sort comparefn l) l.
Proof.
  induction l as [|v rest IH]; simpl; [reflexivity|].
  rewrite sort_insert_perm. constructor. exact IH.
Qed.

Lemma sort_length (l : list A) : length (JS.sort comparefn l) = length l.
Proof. apply Permutation_length, sort_perm. Qed.

(** The comparator never answers "before" both ways. *)
Hypothesis comparefn_antisym :
  forall a b, (comparefn a b <? 0)%float = true -> (comparefn b a <? 0)%float = false.

Lemma sort_insert_sorted (v : A) (l : list A) :
  Sorted not_before l -> Sorted not_before (JS.sort_insert comparefn v l).
Proof.
  induction l as [|e rest IH]; intros Hs; simpl.
  - repeat constructor.
  - destruct (comparefn e v <? 0)%float eqn:Ecmp.
    + inversion Hs as [|? ? Hrest Hhd]; subst.
      constructor; [apply IH; exact Hrest|].
      destruct rest as [|e' rest']; simpl.
      * constructor. apply comparefn_antisym. exact Ecmp.
      * destruct (comparefn e' v <? 0)%float.
        -- inversion Hhd; subst. constructor. assumption.
        -- constructor. apply comparefn_antisym. exact Ecmp.
    + constructor; [exact Hs|]. constructor. exact Ecmp.
Qed.

Lemma sort_sorted (l : list A) : Sorted not_before (JS.sort comparefn l).
Proof.
  induction l as [|v rest IH]; simpl; [constructor|].
  apply sort_insert_sorted. exact IH.
Qed.

End ArraySort.

Lemma Sorted_map {A B : Type} (f : A -> B) (R : B -> B -> Prop) (l : list A) :
  Sorted (fun a b => R (f a) (f b)) l -> Sorted R (map f l).
Proof.
  induction 1 as [|a l Hs IH Hhd]; simpl; constructor; [exact IH|].
  destruct Hhd; simpl; constructor. assumption.
Qed.

(** ** Magnitudes and their order *)

Section Magnitudes.

Open Scope float_scope.

(** A decoded magnitude: a number, so not NaN, with a clear sign bit.
    Every absolute value that is not NaN is one. *)
Definition SF_magnitude (v : spec_float) : Prop :=
  match v with
  | S754_nan => False
  | S754_zero s | S754_infinity s | S754_finite s _ _ => s = false
  end.

Definition magnitude (v : float) : Prop := SF_magnitude (Prim2SF v).

Lemma abs_magnitude (v : float) :
  is_nan (PrimFloat.abs v) = false -> magnitude (PrimFloat.abs v).
Proof.
  unfold magnitude. rewrite is_nan_SF, abs_spec.
  destruct (Prim2SF v) as [s|s| |s m e]; simpl; intros H;
    try discriminate; reflexivity.
Qed.

Lemma SFleb_magnitude_trans (a b c : spec_float) :
  SF_magnitude a -> SF_magnitude b -> SF_magnitude c ->
  SFleb a b = true -> SFleb b c = true -> SFleb a c = true.
Proof.
  unfold SFleb, SFcompare.
  destruct a as [sa|sa| |sa ma ea]; simpl; intros Ha; try contradiction; subst;
    destruct b as [sb|sb| |sb mb eb]; simpl; intros Hb; try contradiction; subst;
    destruct c as [sc|sc| |sc mc ec]; simpl; intros Hc; try contradiction; subst;
    try reflexivity; try discriminate; try (intros _ H; exact H).
  rewrite !Pos.compare_cont_spec. cbn [Pos.switch_Eq].
  destruct (Z.compare_spec ea eb); destruct (Z.compare_spec eb ec);
    destruct (Z.compare_spec ea ec); try lia; try reflexivity; try discriminate;
    subst;
    destruct (Pos.compare_spec ma mb); destruct (Pos.compare_spec mb mc);
    destruct (Pos.compare_spec ma mc); try lia; try reflexivity; try discriminate.
Qed.

Lemma SFleb_magnitude_antisym (a b : spec_float) :
  SF_magnitude a -> SF_magnitude b ->
  SFleb a b = true -> SFleb b a = true -> a = b.
Proof.
  unfold SFleb, SFcompare.
  destruct a as [sa|sa| |sa ma ea]; simpl; intros Ha; try contradiction; subst;
    destruct b as [sb|sb| |sb mb eb]; simpl; intros Hb; try contradiction; subst;
    try reflexivity; try discriminate.
  rewrite !Pos.compare_cont_spec. cbn [Pos.switch_Eq].
  destruct (Z.compare_spec ea eb); destruct (Z.compare_spec eb ea);
    try lia; try discriminate; subst;
    destruct (Pos.compare_spec ma mb); destruct (Pos.compare_spec mb ma);
    try lia; try discriminate; subst; reflexivity.
Qed.

(** [a <= b] between magnitudes. *)
Definition magnitude_le (a b : float) : Prop :=
  magnitude a /\ magnitude b /\ (a <=? b) = true.

Lemma magnitude_le_trans (a b c : float) :
  magnitude_le a b -> magnitude_le b c -> magnitude_le a c.
Proof.
  unfold magnitude_le. rewrite !leb_spec.
  intros [Ha [Hb Hab]] [_ [Hc Hbc]]. split; [exact Ha|]. split; [exact Hc|].
  exact (@SFleb_magnitude_trans _ _ _ Ha Hb Hc Hab Hbc).
Qed.

Lemma magnitude_le_antisym (a b : float) :
  magnitude_le a b -> magnitude_le b a -> a = b.
Proof.
  unfold magnitude_le. rewrite !leb_spec.
  intros [Ha [Hb Hab]] [_ [_ Hba]]. apply Prim2SF_inj.
  exact (@SFleb_magnitude_antisym _ _ Ha Hb Hab Hba).
Qed.

End Magnitudes.

(** ** Arrangements in order *)

Section SortedUnique.

Variable A : Type.
Variable R : A -> A -> Prop.
Hypothesis R_trans : forall a b c, R a b -> R b c -> R a c.
Hypothesis R_antisym : forall a b, R a b -> R b a -> a = b.

(** Two arrangements of the same elements, both in order, are the same
    list. *)
Lemma StronglySorted_unique (l1 l2 : list A) :
  Permutation l1 l2 -> StronglySorted R l1 -> StronglySorted R l2 -> l1 = l2.
Proof.
  revert l2. induction l1 as [|a l1 IH]; intros l2 Hp H1 H2.
  - apply Permutation_nil in Hp. subst. reflexivity.
  - destruct l2 as [|b l2]; [apply Permutation_sym, Permutation_nil in Hp; discriminate|].
    inversion H1 as [|? ? S1 F1]; subst. inversion H2 as [|? ? S2 F2]; subst.
    assert (Hab : a = b).
    { assert (Ha : In a (b :: l2)) by (apply (Permutation_in _ Hp); left; reflexivity).
      assert (Hb : In b (a :: l1))
        by (apply (Permutation_in _ (Permutation_sym Hp)); left; reflexivity).
      destruct Ha as [Ha|Ha]; [symmetry; exact Ha|].
      destruct Hb as [Hb|Hb]; [exact Hb|].
      rewrite Forall_forall in F1, F2.
      apply R_antisym; [apply F1; exact Hb|apply F2; exact Ha]. }
    subst b. f_equal. apply IH; [|exact S1|exact S2].
    eapply Permutation_cons_inv. exact Hp.
Qed.

Lemma Sorted_unique (l1 l2 : list A) :
  Permutation l1 l2 -> Sorted R l1 -> Sorted R l2 -> l1 = l2.
Proof.
  intros Hp H1 H2.
  apply StronglySorted_unique; [exact Hp| |];
    apply Sorted_StronglySorted; try assumption;
    intros a b c; apply R_trans.
Qed.

End SortedUnique.

(** ** Outlier detection *)

Section Outliers.

Open Scope float_scope.

(** The absolute residual of a point, and the residuals of a dataset in
    input order. *)
Definition abs_residual (slope intercept : float) (p : Point.t) : float :=
  PrimFloat.abs (Point.y p - (slope * Point.x p + intercept)).

Definition abs_residuals (points : list Point.t) (slope intercept : float) : list float :=
  map (abs_residual slope intercept) points.

(** The arrays [residuals] and [sorted] of [detectOutliers]. *)
Definition residuals_of (points : list Point.t) (slope intercept : float)
  : list Residual.t :=
  JS.mapi (fun p i =>
             Residual.mk i (PrimFloat.abs (Point.y p - (slope * Point.x p + intercept))))
          points.

Definition sorted_residuals (points : list Point.t) (slope intercept : float)
  : list Residual.t :=
  JS.sort (fun a b => Residual.residual a - Residual.residual b)
          (residuals_of points slope intercept).

(** The residuals as the sort leaves them. *)
Definition sorted_abs_residuals (points : list Point.t) (slope intercept : float)
  : list float :=
  map Residual.residual (sorted_residuals points slope intercept).

(** [Q3 + 1.5·(Q3 − Q1)], with [Q1] and [Q3] the sorted residuals at
    positions [floor(0.25·count)] and [floor(0.75·count)]. *)
Definition iqr_threshold (points : list Point.t) (slope intercept : float) : float :=
  let count := length points in
  let Q1 := nth (count / 4) (sorted_abs_residuals points slope intercept) nan in
  let Q3 := nth (3 * count / 4) (sorted_abs_residuals points slope intercept) nan in
  Q3 + 1.5 * (Q3 - Q1).

(** Neighbours in ascending order: the later one minus the earlier one is
    not negative. *)
Definition ascending (a b : float) : Prop := (b - a <? 0) = false.

Lemma mapi_from_residual (g : Point.t -> float) (i : nat) (l : list Point.t) :
  map Residual.residual (JS.mapi_from (fun p k => Residual.mk k (g p)) i l) = map g l.
Proof.
  revert i. induction l as [|p rest IH]; intros i; simpl; [reflexivity|].
  rewrite IH. reflexivity.
Qed.

Lemma mapi_from_length {A B : Type} (f : A -> nat -> B) (i : nat) (l : list A) :
  length (JS.mapi_from f i l) = length l.
Proof.
  revert i. induction l as [|v rest IH]; intros i; simpl; [reflexivity|].
  rewrite IH. reflexivity.
Qed.

(** Filtering the indexed residuals and reading the indices back is
    filtering the index range. *)
Lemma mapi_filter_indices (g : Point.t -> float) (keep : float -> bool)
      (i : nat) (l : list Point.t) :
  map Residual.index
      (filter (fun r => keep (Residual.residual r))
              (JS.mapi_from (fun p k => Residual.mk k (g p)) i l))
  = filter (fun k => keep (nth (k - i) (map g l) nan)) (seq i (length l)).
Proof.
  revert i. induction l as [|p rest IH]; intros i; [reflexivity|].
  cbn [JS.mapi_from filter length seq map Residual.residual].
  rewrite Nat.sub_diag.
  change (nth 0 (g p :: map g rest) nan) with (g p).
  assert (Htail : filter (fun k => keep (nth (k - i) (g p :: map g rest) nan))
                         (seq (S i) (length rest))
                  = filter (fun k => keep (nth (k - S i) (map g rest) nan))
                           (seq (S i) (length rest))).
  { apply filter_ext_in. intros k Hk. apply in_seq in Hk.
    replace (k - i)%nat with (S (k - S i)) by lia. reflexivity. }
  destruct (keep (g p)); cbn [map Residual.index]; rewrite IH, Htail; reflexivity.
Qed.

Lemma residuals_of_residual (points : list Point.t) (slope intercept : float) :
  map Residual.residual (residuals_of points slope intercept)
  = abs_residuals points slope intercept.
Proof. unfold residuals_of, JS.mapi. apply mapi_from_residual. Qed.

Lemma sorted_residuals_length (points : list Point.t) (slope intercept : float) :
  length (sorted_residuals points slope intercept) = length points.
Proof.
  unfold sorted_residuals. rewrite sort_length.
  unfold residuals_of, JS.mapi. apply mapi_from_length.
Qed.

(** On an array of fewer than 2^32 elements, the bound on the length of
    an array, the two indices are [len / 4] and [3 · len / 4] and the
    threshold the code computes is the one of the specification. *)
Lemma detectOutliers_unfold (points : list Point.t) (slope intercept : float) :
  (4 <= length points)%nat -> (Z.of_nat (length points) < 2 ^ 32)%Z ->
  detectOutliers points slope intercept
  = map Residual.index
        (filter (fun r => iqr_threshold points slope intercept <? Residual.residual r)
                (residuals_of points slope intercept)).
Proof.
  intros H4 H32. unfold detectOutliers.
  apply Nat.ltb_ge in H4. rewrite H4.
  fold (residuals_of points slope intercept).
  fold (sorted_residuals points slope intercept).
  cbv zeta. rewrite sorted_residuals_length.
  rewrite floor_quarter, floor_three_quarters by exact H32.
  assert (Hnth : forall k l, Residual.residual (nth k l (Residual.mk 0 nan))
                             = nth k (map Residual.residual l) nan).
  { intros k l. symmetry. exact (map_nth Residual.residual l (Residual.mk 0 nan) k). }
  rewrite !Hnth. reflexivity.
Qed.

Lemma Sorted_weaken {A : Type} (P : A -> Prop) (R R' : A -> A -> Prop) (l : list A) :
  (forall a b, P a -> P b -> R a b -> R' a b) ->
  Forall P l -> Sorted R l -> Sorted R' l.
Proof.
  intros HR HP Hs. induction Hs as [|a l Hs IH Hhd]; constructor.
  - apply IH. inversion HP; assumption.
  - inversion HP as [|? ? Pa Pl]; subst.
    destruct Hhd as [|b l Hab]; constructor.
    apply HR; [exact Pa| |exact Hab]. inversion Pl; assumption.
Qed.

(** The order of numbers: [a <= b]. *)
Definition number_le (a b : float) : Prop := (a <=? b) = true.

(** [Q3 + 1.5·(Q3 − Q1)], with [Q1] and [Q3] read off an arrangement
    [sorted] of the residuals at positions [floor(0.25·count)] and
    [floor(0.75·count)]. *)
Definition threshold_of (sorted : list float) : float :=
  let count := length sorted in
  let Q1 := nth (count / 4) sorted nan in
  let Q3 := nth (3 * count / 4) sorted nan in
  Q3 + 1.5 * (Q3 - Q1).

Lemma sorted_abs_residuals_length (points : list Point.t) (slope intercept : float) :
  length (sorted_abs_residuals points slope intercept) = length points.
Proof. unfold sorted_abs_residuals. rewrite length_map. apply sorted_residuals_length. Qed.

Lemma iqr_threshold_of (points : list Point.t) (slope intercept : float) :
  iqr_threshold points slope intercept
  = threshold_of (sorted_abs_residuals points slope intercept).
Proof.
  unfold iqr_threshold, threshold_of. rewrite sorted_abs_residuals_length. reflexivity.
Qed.

(** A residual that is not NaN is a magnitude. *)
Lemma abs_residuals_magnitude (points : list Point.t) (slope intercept : float) :
  (forall r, In r (abs_residuals points slope intercept) -> is_nan r = false) ->
  Forall magnitude (abs_residuals points slope intercept).
Proof.
  intros Hnan. apply Forall_forall. intros r Hr.
  pose proof (Hnan r Hr) as Hr'.
  unfold abs_residuals in Hr. apply in_map_iff in Hr. destruct Hr as [p [<- _]].
  apply abs_magnitude. exact Hr'.
Qed.

Lemma Sorted_magnitude_le (l : list float) :
  Forall magnitude l -> Sorted number_le l -> Sorted magnitude_le l.
Proof.
  apply Sorted_weaken. intros a b Ha Hb Hab. repeat split; assumption.
Qed.

(** C9.  Fewer than four points give no outlier.  For four or more (an
    array holds fewer than 2^32) the positions [floor(0.25·count)] and
    [floor(0.75·count)] are [count / 4] and [3·count / 4], both inside
    the array.  When no absolute residual is NaN, the array the sort
    leaves holds the same residuals in ascending order [<=]; it is the
    only such arrangement [s], and the result is exactly the indices of
    the original order, ascending, whose absolute residual is strictly
    above [Q3 + 1.5·(Q3 − Q1)], with [Q1] and [Q3] read off [s].  With a
    NaN residual the comparator [a - b] orders nothing consistently and
    the sorted array is whatever the runtime leaves; nothing is stated
    of it. *)
Theorem detectOutliers_spec (points : list Point.t) (slope intercept : float) :
  ((length points < 4)%nat -> detectOutliers points slope intercept = [])
  /\ ((4 <= length points)%nat -> (Z.of_nat (length points) < 2 ^ 32)%Z ->
      (forall r, In r (abs_residuals points slope intercept) -> is_nan r = false) ->
      Permutation (sorted_abs_residuals points slope intercept)
                  (abs_residuals points slope intercept)
      /\ Sorted number_le (sorted_abs_residuals points slope intercept)
      /\ forall s,
           Permutation s (abs_residuals points slope intercept) ->
           Sorted number_le s ->
           s = sorted_abs_residuals points slope intercept
           /\ detectOutliers points slope intercept
              = filter (fun i => threshold_of s
                                 <? nth i (abs_residuals points slope intercept) nan)
                       (seq 0 (length points)))
  /\ ((4 <= length points)%nat -> (Z.of_nat (length points) < 2 ^ 32)%Z ->
      let count := length (sorted_abs_residuals points slope intercept) in
      Z.to_nat (JS.Math_floor (JS.of_nat count * 0.25)) = (length points / 4)%nat
      /\ Z.to_nat (JS.Math_floor (JS.of_nat count * 0.75)) = (3 * length points / 4)%nat
      /\ (length points / 4 < count)%nat
      /\ (3 * length points / 4 < count)%nat).
Proof.
  pose proof (sorted_abs_residuals_length points slope intercept) as Hlen.
  assert (Hperm : Permutation (sorted_abs_residuals points slope intercept)
                              (abs_residuals points slope intercept)).
  { unfold sorted_abs_residuals. rewrite <- residuals_of_residual.
    apply Permutation_map. unfold sorted_residuals. apply sort_perm. }
  assert (Hsorted : Sorted ascending (sorted_abs_residuals points slope intercept)).
  { unfold sorted_abs_residuals, sorted_residuals.
    apply Sorted_map.
    apply (@sort_sorted _ (fun a b => Residual.residual a - Residual.residual b)).
    intros a b. apply sub_neg_antisym. }
  split; [|split].
  - intros H. unfold detectOutliers. apply Nat.ltb_lt in H. rewrite H. reflexivity.
  - intros H4 H32 Hnan.
    assert (Hle : Sorted number_le (sorted_abs_residuals points slope intercept)).
    { apply (@Sorted_weaken _ (fun r => is_nan r = false) ascending number_le).
      - intros a b Ha Hb Hab. apply sub_not_negative_leb; assumption.
      - apply Forall_forall. intros r Hr. apply Hnan.
        eapply Permutation_in; [exact Hperm|exact Hr].
      - exact Hsorted. }
    pose proof (abs_residuals_magnitude points slope intercept Hnan) as Hmag.
    split; [exact Hperm|]. split; [exact Hle|].
    intros s Hs Hsle.
    assert (Heq : s = sorted_abs_residuals points slope intercept).
    { apply (@Sorted_unique _ magnitude_le magnitude_le_trans magnitude_le_antisym).
      - rewrite Hs, Hperm. reflexivity.
      - apply Sorted_magnitude_le; [|exact Hsle].
        eapply Permutation_Forall; [symmetry; exact Hs|exact Hmag].
      - apply Sorted_magnitude_le; [|exact Hle].
        eapply Permutation_Forall; [symmetry; exact Hperm|exact Hmag]. }
    split; [exact Heq|]. rewrite Heq, <- iqr_threshold_of.
    rewrite detectOutliers_unfold by assumption.
    unfold residuals_of, JS.mapi.
    rewrite (mapi_filter_indices (abs_residual slope intercept)
               (fun v => iqr_threshold points slope intercept <? v)).
    apply filter_ext. intros k. rewrite Nat.sub_0_r. reflexivity.
  - intros H4 H32. cbv zeta. rewrite Hlen.
    rewrite floor_quarter, floor_three_quarters by exact H32.
    repeat split; try apply Nat.Div0.div_lt_upper_bound; lia.
Qed.

(** Five points, four on the line [y = 2x] and one far above it: the
    sorted residuals are 0, 0, 0, 1, 54, so [Q1 = 0], [Q3 = 1], the
    threshold is 2.5 and index 2 is the only outlier. *)
Example detectOutliers_sample :
  detectOutliers [Point.mk 1 2; Point.mk 2 4; Point.mk 3 60; Point.mk 4 9; Point.mk 5 10] 2 0
  = [2%nat]
  /\ sorted_abs_residuals
       [Point.mk 1 2; Point.mk 2 4; Point.mk 3 60; Point.mk 4 9; Point.mk 5 10] 2 0
     = [0; 0; 0; 1; 54]
  /\ iqr_threshold
       [Point.mk 1 2; Point.mk 2 4; Point.mk 3 60; Point.mk 4 9; Point.mk 5 10] 2 0
     = 2.5.
Proof. vm_compute. repeat split. Qed.

(** The five-point dataset of the example above. *)
Definition outlier_points : list Point.t :=
  [Point.mk 1 2; Point.mk 2 4; Point.mk 3 60; Point.mk 4 9; Point.mk 5 10].

Lemma detectOutliers_spec_witness :
  (4 <= length outlier_points)%nat
  /\ (Z.of_nat (length outlier_points) < 2 ^ 32)%Z
  /\ (forall r, In r (abs_residuals outlier_points 2 0) -> is_nan r = false)
  /\ Permutation [0; 0; 0; 1; 54] (abs_residuals outlier_points 2 0)
  /\ Sorted number_le [0; 0; 0; 1; 54]
  /\ detectOutliers outlier_points 2 0
     = filter (fun i => threshold_of [0; 0; 0; 1; 54]
                        <? nth i (abs_residuals outlier_points 2 0) nan)
              (seq 0 (length outlier_points)).
Proof.
  assert (Hlen : (4 <= length outlier_points)%nat) by (simpl; lia).
  assert (Hnan : forall r, In r (abs_residuals outlier_points 2 0) -> is_nan r = false).
  { intros r Hr. vm_compute in Hr.
    repeat (destruct Hr as [<-|Hr]; [reflexivity|]). destruct Hr. }
  assert (H32 : (Z.of_nat (length outlier_points) < 2 ^ 32)%Z) by reflexivity.
  assert (Hperm : Permutation [0; 0; 0; 1; 54] (abs_residuals outlier_points 2 0)).
  { change (abs_residuals outlier_points 2 0) with [0; 0; 54; 1; 0].
    do 2 apply perm_skip. exact (Permutation_rev [0; 1; 54]). }
  assert (Hle : Sorted number_le [0; 0; 0; 1; 54])
    by (repeat constructor).
  destruct (detectOutliers_spec outlier_points 2 0) as [_ [Hspec _]].
  destruct (Hspec Hlen H32 Hnan) as [_ [_ Hs]].
  split; [exact Hlen|]. split; [exact H32|]. split; [exact Hnan|].
  split; [exact Hperm|]. split; [exact Hle|].
  exact (proj2 (Hs _ Hperm Hle)).
Defined.

End Outliers.

(** * Further properties of the library and of its callers *)

(** ** Numbers with a clear sign bit *)

Section SignClear.

Open Scope float_scope.

(** A decoded value whose sign bit is clear: NaN, [+0], a positive
    number or [+Infinity]. *)
Definition SF_sign_clear (v : spec_float) : Prop :=
  match v with
  | S754_nan => True
  | S754_zero s | S754_infinity s | S754_finite s _ _ => s = false
  end.

Definition sign_clear (v : float) : Prop := SF_sign_clear (Prim2SF v).

Lemma SF_sign_clear_not_negative (v : spec_float) :
  SF_sign_clear v -> SFltb v (S754_zero false) = false.
Proof. destruct v as [s|s| |s m e]; simpl; intros H; subst; reflexivity. Qed.

Lemma sign_clear_not_negative (v : float) : sign_clear v -> (v <? 0) = false.
Proof.
  intros H. rewrite ltb_spec. change (Prim2SF 0) with (S754_zero false).
  apply SF_sign_clear_not_negative. exact H.
Qed.

Lemma binary_round_aux_sign_clear (m e : Z) (l : location) :
  SF_sign_clear (binary_round_aux prec emax false m e l).
Proof.
  unfold binary_round_aux.
  destruct (shr_fexp prec emax m e l) as [mrs' e'].
  destruct (shr_fexp prec emax _ e' loc_Exact) as [mrs'' e''].
  destruct (shr_m mrs''); simpl; auto.
  destruct (_ <=? _)%Z; simpl; auto.
Qed.

Lemma binary_round_sign_clear (m : positive) (e : Z) :
  SF_sign_clear (binary_round prec emax false m e).
Proof.
  unfold binary_round. destruct (shl_align m e _) as [mz ez].
  apply binary_round_aux_sign_clear.
Qed.

Lemma SFadd_sign_clear (u v : spec_float) :
  SF_sign_clear u -> SF_sign_clear v -> SF_sign_clear (SF64add u v).
Proof.
  unfold SF64add, SFadd.
  destruct u as [su|su| |su mu eu]; destruct v as [sv|sv| |sv mv ev];
    simpl; intros Hu Hv; subst; try exact I; try reflexivity.
  apply binary_round_sign_clear.
Qed.

Lemma SFmul_self_sign_clear (u : spec_float) : SF_sign_clear (SF64mul u u).
Proof.
  unfold SF64mul, SFmul.
  destruct u as [s|s| |s m e]; simpl; try exact I; try (destruct s; reflexivity).
  rewrite xorb_nilpotent. apply binary_round_aux_sign_clear.
Qed.

Lemma SFdiv_sign_clear (u v : spec_float) :
  SF_sign_clear u -> SF_sign_clear v -> SF_sign_clear (SF64div u v).
Proof.
  unfold SF64div, SFdiv.
  destruct u as [su|su| |su mu eu]; destruct v as [sv|sv| |sv mv ev];
    simpl; intros Hu Hv; subst; try exact I; try reflexivity.
  destruct (SFdiv_core_binary prec emax (Z.pos mu) eu (Z.pos mv) ev) as [[mz ez] lz].
  apply binary_round_aux_sign_clear.
Qed.

Lemma of_nat_sign_clear (n : nat) : sign_clear (JS.of_nat n).
Proof.
  unfold sign_clear, JS.of_nat. rewrite of_uint63_spec.
  pose proof (Uint63.to_Z_bounded (Uint63.of_Z (Z.of_nat n))) as [Hlo _].
  destruct (Uint63.to_Z (Uint63.of_Z (Z.of_nat n))) as [|p|p]; try lia.
  - reflexivity.
  - apply binary_round_sign_clear.
Qed.

Lemma sq_sign_clear (v : float) : sign_clear (JS.sq v).
Proof. unfold sign_clear, JS.sq. rewrite mul_spec. apply SFmul_self_sign_clear. Qed.

Lemma abs_sign_clear (v : float) : sign_clear (PrimFloat.abs v).
Proof.
  unfold sign_clear. rewrite abs_spec. destruct (Prim2SF v); simpl; auto.
Qed.

Lemma add_sign_clear (u v : float) : sign_clear u -> sign_clear v -> sign_clear (u + v).
Proof. unfold sign_clear. rewrite add_spec. apply SFadd_sign_clear. Qed.

Lemma div_sign_clear (u v : float) : sign_clear u -> sign_clear v -> sign_clear (u / v).
Proof. unfold sign_clear. rewrite div_spec. apply SFdiv_sign_clear. Qed.

(** A sum of terms with a clear sign has a clear sign. *)
Lemma sum_over_sign_clear (points : list Point.t) (f : Point.t -> float) :
  (forall p, sign_clear (f p)) -> sign_clear (sum_over points f).
Proof.
  intros Hf. unfold sum_over.
  assert (H : forall acc, sign_clear acc ->
                          sign_clear (fold_left (fun acc p => acc + f p) points acc)).
  { induction points as [|p rest IH]; intros acc Hacc; [exact Hacc|].
    cbn [fold_left]. apply IH. apply add_sign_clear; [exact Hacc|apply Hf]. }
  apply H. reflexivity.
Qed.

Lemma calculateMSE_sign_clear (points : list Point.t) (slope intercept : float) :
  sign_clear (calculateMSE points slope intercept).
Proof.
  unfold calculateMSE. destruct (length points =? 0)%nat; [reflexivity|].
  apply div_sign_clear; [|apply of_nat_sign_clear].
  apply (sum_over_sign_clear points
           (fun p => JS.sq (Point.y p - (slope * Point.x p + intercept)))).
  intros p. apply sq_sign_clear.
Qed.

Lemma calculateMAE_sign_clear (points : list Point.t) (slope intercept : float) :
  sign_clear (calculateMAE points slope intercept).
Proof.
  unfold calculateMAE. destruct (length points =? 0)%nat; [reflexivity|].
  apply div_sign_clear; [|apply of_nat_sign_clear].
  apply (sum_over_sign_clear points
           (fun p => PrimFloat.abs (Point.y p - (slope * Point.x p + intercept)))).
  intros p. apply abs_sign_clear.
Qed.

End SignClear.

(** ** Error metrics: sign and perfect fit *)

Module MetricSet.
Record t := mk { mse : float; rmse : float; mae : float; r2 : float }.
End MetricSet.

Section MetricFacts.

Open Scope float_scope.

Definition calculateAllMetrics (points : list Point.t) (slope intercept : float)
  : MetricSet.t :=
  MetricSet.mk (calculateMSE points slope intercept)
               (calculateRMSE points slope intercept)
               (calculateMAE points slope intercept)
               (calculateR2 points slope intercept).

Lemma sign_clear_nan_or_le (v : float) :
  sign_clear v -> is_nan v = false -> (0 <=? v) = true.
Proof.
  unfold sign_clear. rewrite is_nan_SF, leb_spec.
  change (Prim2SF 0) with (S754_zero false).
  destruct (Prim2SF v) as [s|s| |s m e]; simpl; intros Hs Hn; subst;
    try discriminate; reflexivity.
Qed.

(** X1.  The mean squared error is never a negative number: it is NaN or at
    least 0, for every dataset, slope and intercept. *)
Theorem calculateMSE_never_negative (points : list Point.t) (slope intercept : float) :
  (calculateMSE points slope intercept <? 0) = false
  /\ (is_nan (calculateMSE points slope intercept) = true
      \/ (0 <=? calculateMSE points slope intercept) = true).
Proof.
  pose proof (calculateMSE_sign_clear points slope intercept) as H.
  split; [apply sign_clear_not_negative; exact H|].
  destruct (is_nan (calculateMSE points slope intercept)) eqn:E; [left; reflexivity|].
  right. apply sign_clear_nan_or_le; assumption.
Qed.

(** X2.  The mean absolute error is never a negative number either. *)
Theorem calculateMAE_never_negative (points : list Point.t) (slope intercept : float) :
  (calculateMAE points slope intercept <? 0) = false
  /\ (is_nan (calculateMAE points slope intercept) = true
      \/ (0 <=? calculateMAE points slope intercept) = true).
Proof.
  pose proof (calculateMAE_sign_clear points slope intercept) as H.
  split; [apply sign_clear_not_negative; exact H|].
  destruct (is_nan (calculateMAE points slope intercept)) eqn:E; [left; reflexivity|].
  right. apply sign_clear_nan_or_le; assumption.
Qed.

Lemma abs_sub_eq_zero (a b : float) :
  PrimFloat.is_finite a = true -> (a =? b) = true -> PrimFloat.abs (a - b) = 0.
Proof.
  rewrite is_finite_SF, eqb_spec. intros Hf He.
  destruct (SFsub_eq_zero _ _ Hf He) as [s Hs].
  apply Prim2SF_inj. rewrite abs_spec, sub_spec, Hs. reflexivity.
Qed.

(** Zero divided by the length of a non-empty array is zero. *)
Lemma zero_div_length (len : nat) :
  (0 < len)%nat -> (Z.of_nat len < 2 ^ 53)%Z -> 0 / JS.of_nat len = 0.
Proof.
  intros Hpos Hlt. apply Prim2SF_inj.
  rewrite div_spec, (Prim2SF_of_nat Hpos Hlt). reflexivity.
Qed.

Lemma calculateMSE_on_line (points : list Point.t) (slope intercept : float) :
  (Z.of_nat (length points) < 2 ^ 53)%Z ->
  on_line points slope intercept ->
  calculateMSE points slope intercept = 0.
Proof.
  intros Hlt Hline. unfold calculateMSE.
  destruct (length points =? 0)%nat eqn:E; [reflexivity|].
  apply Nat.eqb_neq in E. unfold JS.reduce.
  change (fold_left _ points 0)
    with (sum_over points (fun p => JS.sq (Point.y p - (slope * Point.x p + intercept)))).
  rewrite sum_over_zero.
  - apply zero_div_length; [lia|exact Hlt].
  - intros p Hp. destruct (Hline p Hp). apply sq_sub_eq_zero; assumption.
Qed.

Lemma calculateMAE_on_line (points : list Point.t) (slope intercept : float) :
  (Z.of_nat (length points) < 2 ^ 53)%Z ->
  on_line points slope intercept ->
  calculateMAE points slope intercept = 0.
Proof.
  intros Hlt Hline. unfold calculateMAE.
  destruct (length points =? 0)%nat eqn:E; [reflexivity|].
  apply Nat.eqb_neq in E. unfold JS.reduce.
  change (fold_left _ points 0)
    with (sum_over points
            (fun p => PrimFloat.abs (Point.y p - (slope * Point.x p + intercept)))).
  rewrite sum_over_zero.
  - apply zero_div_length; [lia|exact Hlt].
  - intros p Hp. destruct (Hline p Hp). apply abs_sub_eq_zero; assumption.
Qed.

(** X3.  On a dataset that lies exactly on the line, all three error metrics
    of [calculateAllMetrics] are exactly 0; with at least two points and
    a positive total sum of squares R² is exactly 1 beside them. *)
Theorem calculateAllMetrics_perfect_fit
        (points : list Point.t) (slope intercept : float) :
  (Z.of_nat (length points) < 2 ^ 53)%Z ->
  on_line points slope intercept ->
  MetricSet.mse (calculateAllMetrics points slope intercept) = 0
  /\ MetricSet.rmse (calculateAllMetrics points slope intercept) = 0
  /\ MetricSet.mae (calculateAllMetrics points slope intercept) = 0
  /\ ((2 <= length points)%nat -> (0 <? ss_tot points) = true ->
      calculateAllMetrics points slope intercept = MetricSet.mk 0 0 0 1).
Proof.
  intros Hlt Hline.
  pose proof (calculateMSE_on_line Hlt Hline) as Hmse.
  pose proof (calculateMAE_on_line Hlt Hline) as Hmae.
  assert (Hrmse : calculateRMSE points slope intercept = 0)
    by (unfold calculateRMSE; rewrite Hmse; reflexivity).
  unfold calculateAllMetrics.
  cbn [MetricSet.mse MetricSet.rmse MetricSet.mae].
  repeat split; try assumption.
  intros Hlen Hpos. rewrite Hmse, Hrmse, Hmae. f_equal.
  rewrite calculateR2_unfold.
  apply Nat.ltb_ge in Hlen. rewrite Hlen.
  destruct (one_minus_zero_over_pos Hpos) as [Hz Hone]. rewrite Hz.
  assert (Hres : ss_res points slope intercept = 0).
  { apply sum_over_zero. intros p Hp. destruct (Hline p Hp).
    apply sq_sub_eq_zero; assumption. }
  rewrite Hres. exact Hone.
Qed.

Lemma calculateAllMetrics_perfect_fit_witness :
  (Z.of_nat (length sample_points) < 2 ^ 53)%Z
  /\ on_line sample_points 2 0
  /\ calculateAllMetrics sample_points 2 0 = MetricSet.mk 0 0 0 1.
Proof.
  assert (Hlt : (Z.of_nat (length sample_points) < 2 ^ 53)%Z) by reflexivity.
  assert (Hline : on_line sample_points 2 0).
  { intros p Hp. simpl in Hp.
    repeat (destruct Hp as [<-|Hp]; [vm_compute; split; reflexivity|]).
    destruct Hp. }
  split; [exact Hlt|]. split; [exact Hline|].
  apply (proj2 (proj2 (proj2 (calculateAllMetrics_perfect_fit Hlt Hline)))).
  - simpl. lia.
  - vm_compute. reflexivity.
Defined.

End MetricFacts.

(** ** Regularization penalties *)

Section Regularization.

Open Scope float_scope.

Definition ridgeRegularization (baseCost slope lambda : float) : float :=
  baseCost + lambda * JS.sq slope.

Definition lassoRegularization (baseCost slope lambda : float) : float :=
  baseCost + lambda * PrimFloat.abs slope.

Lemma sq_opp (v : float) : JS.sq (- v) = JS.sq v.
Proof.
  unfold JS.sq. apply Prim2SF_inj. rewrite !mul_spec, opp_spec.
  unfold SF64mul, SFmul.
  destruct (Prim2SF v) as [s|s| |s m e]; simpl; try reflexivity;
    destruct s; reflexivity.
Qed.

Lemma abs_opp (v : float) : PrimFloat.abs (- v) = PrimFloat.abs v.
Proof.
  apply Prim2SF_inj. rewrite !abs_spec, opp_spec.
  destruct (Prim2SF v); reflexivity.
Qed.

(** X4.  Both penalties depend on the size of the weight only: a weight and
    its opposite give the same regularized cost. *)
Theorem regularization_even (baseCost slope lambda : float) :
  ridgeRegularization baseCost (- slope) lambda = ridgeRegularization baseCost slope lambda
  /\ lassoRegularization baseCost (- slope) lambda
     = lassoRegularization baseCost slope lambda.
Proof.
  unfold ridgeRegularization, lassoRegularization.
  rewrite sq_opp, abs_opp. split; reflexivity.
Qed.

(** A decoded zero of either sign. *)
Definition SF_is_zero (v : spec_float) : bool :=
  match v with S754_zero _ => true | _ => false end.

Lemma eqb_zero_SF (v : float) : (v =? 0) = SF_is_zero (Prim2SF v).
Proof.
  rewrite eqb_spec. change (Prim2SF 0) with (S754_zero false).
  destruct (Prim2SF v) as [s|s| |s m e]; try reflexivity; destruct s; reflexivity.
Qed.

(** Adding a zero to a number gives back a number equal to it. *)
Lemma add_zero_eqb (b z : float) :
  is_nan b = false -> (z =? 0) = true -> (b + z =? b) = true.
Proof.
  rewrite is_nan_SF, eqb_zero_SF, eqb_spec, add_spec.
  unfold SF64add, SFadd, SFeqb, SFcompare.
  destruct (Prim2SF z) as [sz|sz| |sz mz ez]; try discriminate. intros Hb _.
  destruct (Prim2SF b) as [sb|sb| |sb mb eb]; try discriminate Hb.
  - destruct sb, sz; reflexivity.
  - destruct sb; reflexivity.
  - rewrite Z.compare_refl, Pos.compare_cont_refl. destruct sb; reflexivity.
Qed.

(** A finite number times a zero is a zero. *)
Lemma mul_zero_r (a z : float) :
  PrimFloat.is_finite a = true -> (z =? 0) = true -> (a * z =? 0) = true.
Proof.
  rewrite is_finite_SF, !eqb_zero_SF, mul_spec. unfold SF64mul, SFmul.
  destruct (Prim2SF z) as [sz|sz| |sz mz ez]; try discriminate. intros Ha _.
  destruct (Prim2SF a) as [sa|sa| |sa ma ea]; try discriminate Ha; reflexivity.
Qed.

Lemma mul_zero_l (z a : float) :
  (z =? 0) = true -> PrimFloat.is_finite a = true -> (z * a =? 0) = true.
Proof.
  rewrite is_finite_SF, !eqb_zero_SF, mul_spec. unfold SF64mul, SFmul.
  destruct (Prim2SF z) as [sz|sz| |sz mz ez]; try discriminate. intros _ Ha.
  destruct (Prim2SF a) as [sa|sa| |sa ma ea]; try discriminate Ha; reflexivity.
Qed.

Lemma sq_zero (s : float) : (s =? 0) = true -> (JS.sq s =? 0) = true.
Proof.
  rewrite !eqb_zero_SF. unfold JS.sq. rewrite mul_spec. unfold SF64mul, SFmul.
  destruct (Prim2SF s) as [sz|sz| |sz mz ez]; try discriminate. reflexivity.
Qed.

Lemma abs_zero (s : float) : (s =? 0) = true -> (PrimFloat.abs s =? 0) = true.
Proof.
  rewrite !eqb_zero_SF, abs_spec.
  destruct (Prim2SF s) as [sz|sz| |sz mz ez]; try discriminate. reflexivity.
Qed.

Lemma abs_finite (s : float) :
  PrimFloat.is_finite s = true -> PrimFloat.is_finite (PrimFloat.abs s) = true.
Proof.
  rewrite !is_finite_SF, abs_spec. destruct (Prim2SF s); simpl; auto.
Qed.

(** X5.  A zero weight is not penalised, whatever the finite strength: the
    regularized cost equals the base cost. *)
Theorem regularization_zero_weight (baseCost slope lambda : float) :
  is_nan baseCost = false -> PrimFloat.is_finite lambda = true ->
  (slope =? 0) = true ->
  (ridgeRegularization baseCost slope lambda =? baseCost) = true
  /\ (lassoRegularization baseCost slope lambda =? baseCost) = true.
Proof.
  intros Hb Hl Hs. unfold ridgeRegularization, lassoRegularization. split.
  - apply add_zero_eqb; [exact Hb|]. apply mul_zero_r; [exact Hl|apply sq_zero; exact Hs].
  - apply add_zero_eqb; [exact Hb|]. apply mul_zero_r; [exact Hl|apply abs_zero; exact Hs].
Qed.

Lemma regularization_zero_weight_witness :
  is_nan 5 = false /\ PrimFloat.is_finite 0.5 = true /\ (0 =? 0) = true
  /\ (ridgeRegularization 5 0 0.5 =? 5) = true
  /\ (lassoRegularization 5 0 0.5 =? 5) = true.
Proof.
  split; [reflexivity|]. split; [reflexivity|]. split; [reflexivity|].
  apply (@regularization_zero_weight 5 0 0.5); reflexivity.
Defined.

(** X6.  With strength 0 the regularized cost equals the base cost, as long as
    the penalty itself is finite: the square of the weight must not
    overflow for ridge, the weight must be finite for lasso. *)
Theorem regularization_zero_lambda (baseCost slope lambda : float) :
  is_nan baseCost = false -> (lambda =? 0) = true ->
  (PrimFloat.is_finite (JS.sq slope) = true ->
   (ridgeRegularization baseCost slope lambda =? baseCost) = true)
  /\ (PrimFloat.is_finite slope = true ->
      (lassoRegularization baseCost slope lambda =? baseCost) = true).
Proof.
  intros Hb Hl. unfold ridgeRegularization, lassoRegularization. split; intros Hs.
  - apply add_zero_eqb; [exact Hb|]. apply mul_zero_l; assumption.
  - apply add_zero_eqb; [exact Hb|]. apply mul_zero_l; [exact Hl|].
    apply abs_finite. exact Hs.
Qed.

Lemma regularization_zero_lambda_witness :
  is_nan 5 = false /\ (0 =? 0) = true
  /\ PrimFloat.is_finite (JS.sq 2) = true
  /\ (ridgeRegularization 5 2 0 =? 5) = true
  /\ (lassoRegularization 5 2 0 =? 5) = true.
Proof.
  split; [reflexivity|]. split; [reflexivity|]. split; [reflexivity|].
  destruct (@regularization_zero_lambda 5 2 0 eq_refl eq_refl) as [Hr Hl].
  split; [apply Hr|apply Hl]; reflexivity.
Defined.

End Regularization.

(** With a weight whose square overflows, strength 0 does not switch the
    ridge penalty off: [0 · Infinity] is NaN. *)
Example ridgeRegularization_overflow :
  ridgeRegularization 5 0x1p600 0 = nan.
Proof. vm_compute. reflexivity. Qed.

(** ** Gradient descent: final parameters, full runs, learning rate 0 *)

Section GradientDescentMore.

Open Scope float_scope.

(** X7.  The returned parameters are those of the last record of the history,
    and the initial ones when no epoch ran. *)
Theorem gradientDescent_final_parameters
        (points : list Point.t) (lr : float) (iterations : nat) (s0 b0 : float) :
  (OptimizationRun.history (gradientDescent points lr iterations s0 b0) = [] ->
   OptimizationRun.finalSlope (gradientDescent points lr iterations s0 b0) = s0
   /\ OptimizationRun.finalIntercept (gradientDescent points lr iterations s0 b0) = b0)
  /\ (forall init rec,
         OptimizationRun.history (gradientDescent points lr iterations s0 b0)
         = init ++ [rec] ->
         OptimizationRun.finalSlope (gradientDescent points lr iterations s0 b0)
         = EpochRecord.slope rec
         /\ OptimizationRun.finalIntercept (gradientDescent points lr iterations s0 b0)
            = EpochRecord.intercept rec).
Proof.
  destruct (gradientDescent_final points lr iterations s0 b0) as [Hs Hb].
  cbv zeta in Hs, Hb. rewrite Hs, Hb, gradientDescent_history.
  split.
  - intros ->. split; reflexivity.
  - intros init rec ->. rewrite !map_app. cbn [map]. rewrite !last_last.
    split; reflexivity.
Qed.

Lemma gradientDescent_final_parameters_witness :
  OptimizationRun.finalSlope (gradientDescent sample_points 0.0625 3 0 0)
  = EpochRecord.slope
      (nth 2 (OptimizationRun.history (gradientDescent sample_points 0.0625 3 0 0))
           (EpochRecord.mk 0 0 0 0 0 0)).
Proof.
  eapply (proj2 (gradientDescent_final_parameters sample_points 0.0625 3 0 0)
                (firstn 2 (OptimizationRun.history
                             (gradientDescent sample_points 0.0625 3 0 0)))).
  vm_compute. reflexivity.
Defined.

Lemma epochs_from_all_finite (points : list Point.t) (lr : float)
      (remaining k : nat) (slope intercept : float) :
  (forall rec, In rec (epochs_from points lr remaining k slope intercept) ->
               JS.isFinite (EpochRecord.loss rec) = true) ->
  length (epochs_from points lr remaining k slope intercept) = remaining.
Proof.
  revert k slope intercept.
  induction remaining as [|r IH]; intros k slope intercept Hall; [reflexivity|].
  cbn [epochs_from] in *.
  set (r1 := epoch_record points lr k slope intercept) in *.
  assert (H1 : JS.isFinite (EpochRecord.loss r1) = true) by (apply Hall; left; reflexivity).
  rewrite H1 in *. cbn [length]. f_equal. apply IH.
  intros rec Hrec. apply Hall. right. exact Hrec.
Qed.

(** X8.  A run that reports [converged = true] ran every requested epoch, and
    every loss it recorded is finite. *)
Theorem gradientDescent_converged_full_run
        (points : list Point.t) (lr : float) (iterations : nat) (s0 b0 : float) :
  OptimizationRun.converged (gradientDescent points lr iterations s0 b0) = true ->
  length (OptimizationRun.history (gradientDescent points lr iterations s0 b0))
  = iterations
  /\ forall rec,
       In rec (OptimizationRun.history (gradientDescent points lr iterations s0 b0)) ->
       JS.isFinite (EpochRecord.loss rec) = true.
Proof.
  rewrite gradientDescent_converged. cbv zeta.
  rewrite gradientDescent_history.
  set (h := epochs_from points lr iterations 1 s0 b0).
  intros Hc. apply andb_prop in Hc. destruct Hc as [Hlen Hlast].
  apply Nat.ltb_lt in Hlen.
  assert (Hall : forall rec, In rec h -> JS.isFinite (EpochRecord.loss rec) = true).
  { intros rec Hrec. destruct (JS.isFinite (EpochRecord.loss rec)) eqn:E; [reflexivity|].
    apply In_nth_error in Hrec. destruct Hrec as [j Hj].
    pose proof (epochs_from_stop _ _ _ _ _ _ _ Hj E) as Hstop. fold h in Hstop.
    rewrite Hstop in Hlast. replace (S j - 1)%nat with j in Hlast by lia.
    rewrite (nth_error_nth _ _ _ Hj) in Hlast. congruence. }
  split; [|exact Hall]. apply epochs_from_all_finite. exact Hall.
Qed.

Lemma gradientDescent_converged_full_run_witness :
  OptimizationRun.converged (gradientDescent sample_points 0.0625 3 0 0) = true
  /\ length (OptimizationRun.history (gradientDescent sample_points 0.0625 3 0 0))
     = 3%nat.
Proof.
  assert (H : OptimizationRun.converged (gradientDescent sample_points 0.0625 3 0 0) = true)
    by (vm_compute; reflexivity).
  split; [exact H|].
  exact (proj1 (gradientDescent_converged_full_run sample_points 0.0625 3 0 0 H)).
Defined.

(** Subtracting [0 · g], for a finite [g], leaves every number but the
    negative zero as it is. *)
Lemma sub_zero_mul (v g : float) :
  PrimFloat.is_finite g = true -> v <> neg_zero -> v - 0 * g = v.
Proof.
  rewrite is_finite_SF. intros Hg Hv.
  apply Prim2SF_inj. rewrite sub_spec, mul_spec.
  change (Prim2SF 0) with (S754_zero false).
  assert (Hnz : Prim2SF v <> S754_zero true).
  { intros E. apply Hv. apply Prim2SF_inj. rewrite E. reflexivity. }
  unfold SF64mul, SFmul, SF64sub, SFsub.
  destruct (Prim2SF g) as [sg|sg| |sg mg eg]; try discriminate Hg;
    destruct (Prim2SF v) as [sv|sv| |sv mv ev]; try reflexivity;
    destruct sv, sg; try reflexivity; exfalso; apply Hnz; reflexivity.
Qed.

(** X9.  With learning rate 0, finite gradients at the initial parameters and
    initial parameters other than the negative zero, no epoch moves the
    parameters: every record holds the initial slope and intercept and
    their loss, and so does the result. *)
Theorem gradientDescent_zero_learningRate
        (points : list Point.t) (iterations : nat) (s0 b0 : float) :
  PrimFloat.is_finite (slopeGradient_at points s0 b0) = true ->
  PrimFloat.is_finite (interceptGradient_at points s0 b0) = true ->
  s0 <> neg_zero -> b0 <> neg_zero ->
  (forall rec,
      In rec (OptimizationRun.history (gradientDescent points 0 iterations s0 b0)) ->
      EpochRecord.slope rec = s0
      /\ EpochRecord.intercept rec = b0
      /\ EpochRecord.loss rec = calculateMSE points s0 b0)
  /\ OptimizationRun.finalSlope (gradientDescent points 0 iterations s0 b0) = s0
  /\ OptimizationRun.finalIntercept (gradientDescent points 0 iterations s0 b0) = b0.
Proof.
  intros Hgs Hgi Hs Hb.
  assert (Hrec : forall k, epoch_record points 0 k s0 b0
                           = EpochRecord.mk k s0 b0 (calculateMSE points s0 b0)
                                            (slopeGradient_at points s0 b0)
                                            (interceptGradient_at points s0 b0)).
  { intros k. unfold epoch_record. cbv zeta.
    rewrite (@sub_zero_mul _ _ Hgs Hs), (@sub_zero_mul _ _ Hgi Hb). reflexivity. }
  assert (Hall : forall remaining k rec,
             In rec (epochs_from points 0 remaining k s0 b0) ->
             EpochRecord.slope rec = s0 /\ EpochRecord.intercept rec = b0
             /\ EpochRecord.loss rec = calculateMSE points s0 b0).
  { induction remaining as [|r IH]; intros k rec Hin; [destruct Hin|].
    cbn [epochs_from] in Hin. rewrite Hrec in Hin.
    cbn [EpochRecord.loss EpochRecord.slope EpochRecord.intercept] in Hin.
    destruct Hin as [<-|Hin]; [repeat split; reflexivity|].
    destruct (JS.isFinite (calculateMSE points s0 b0)); [|destruct Hin].
    eapply IH. exact Hin. }
  rewrite gradientDescent_history.
  split; [intros rec Hin; eapply Hall; exact Hin|].
  destruct (gradientDescent_final points 0 iterations s0 b0) as [Hfs Hfb].
  cbv zeta in Hfs, Hfb. rewrite Hfs, Hfb.
  set (h := epochs_from points 0 iterations 1 s0 b0) in *.
  destruct (list_snoc_cases h) as [E|[init [rec E]]].
  - rewrite E. split; reflexivity.
  - assert (Hin : In rec h) by (rewrite E; apply in_or_app; right; left; reflexivity).
    destruct (Hall iterations 1%nat rec Hin) as [H1 [H2 _]].
    rewrite E, !map_app. cbn [map]. rewrite !last_last. split; assumption.
Qed.

Lemma gradientDescent_zero_learningRate_witness :
  PrimFloat.is_finite (slopeGradient_at sample_points 0 0) = true
  /\ PrimFloat.is_finite (interceptGradient_at sample_points 0 0) = true
  /\ OptimizationRun.finalSlope (gradientDescent sample_points 0 5 0 0) = 0
  /\ OptimizationRun.finalIntercept (gradientDescent sample_points 0 5 0 0) = 0.
Proof.
  assert (Hgs : PrimFloat.is_finite (slopeGradient_at sample_points 0 0) = true)
    by (vm_compute; reflexivity).
  assert (Hgi : PrimFloat.is_finite (interceptGradient_at sample_points 0 0) = true)
    by (vm_compute; reflexivity).
  assert (Hz : 0 <> neg_zero) by (intros E; discriminate (f_equal Prim2SF E)).
  split; [exact Hgs|]. split; [exact Hgi|].
  exact (proj2 (@gradientDescent_zero_learningRate sample_points 5 0 0 Hgs Hgi Hz Hz)).
Defined.

End GradientDescentMore.

(** ** Outlier indices and cost surfaces *)

Section IndexFacts.

Open Scope float_scope.

Lemma filter_seq_sorted (keep : nat -> bool) (start len : nat) :
  StronglySorted lt (filter keep (seq start len))
  /\ Forall (fun i => (start <= i < start + len)%nat) (filter keep (seq start len)).
Proof.
  revert start. induction len as [|len IH]; intros start.
  - split; constructor.
  - destruct (IH (S start)) as [Hs Hf]. cbn [seq filter].
    assert (Hf' : Forall (fun i => (start <= i < start + S len)%nat)
                         (filter keep (seq (S start) len))).
    { eapply Forall_impl; [|exact Hf]. simpl. intros i Hi. lia. }
    destruct (keep start); [|split; assumption].
    split.
    + constructor; [exact Hs|].
      eapply Forall_impl; [|exact Hf]. simpl. intros i Hi. lia.
    + constructor; [lia|exact Hf'].
Qed.

(** X10.  Whatever the dataset and the line, [detectOutliers] returns indices of
    the dataset, each at most once and in ascending order. *)
Theorem detectOutliers_indices (points : list Point.t) (slope intercept : float) :
  StronglySorted lt (detectOutliers points slope intercept)
  /\ Forall (fun i => (i < length points)%nat) (detectOutliers points slope intercept)
  /\ NoDup (detectOutliers points slope intercept).
Proof.
  assert (H : exists keep, detectOutliers points slope intercept
                           = filter keep (seq 0 (length points))).
  { unfold detectOutliers. destruct (length points <? 4)%nat.
    - exists (fun _ => false). induction (seq 0 (length points)); [reflexivity|assumption].
    - cbv zeta. unfold JS.mapi, JS.gt.
      match goal with
      | |- context [filter (fun r => ?t <? Residual.residual r) _] =>
          rewrite (mapi_filter_indices (abs_residual slope intercept) (fun v => t <? v))
      end.
      eexists. reflexivity. }
  destruct H as [keep ->].
  destruct (filter_seq_sorted keep 0 (length points)) as [Hs Hf].
  split; [exact Hs|]. split.
  - eapply Forall_impl; [|exact Hf]. simpl. intros i Hi. lia.
  - clear Hf. induction Hs as [|a l Hs IH Ha]; constructor; [|exact IH].
    intros Hin. rewrite Forall_forall in Ha. specialize (Ha a Hin). lia.
Qed.

(** X11.  No cost on the sampled surface is a negative number. *)
Theorem generateCostSurface_costs_never_negative
        (points : list Point.t) (slopeRange interceptRange : float * float)
        (resolution : nat) :
  Forall (Forall (fun c => (c <? 0) = false))
         (CostSurface.costs
            (generateCostSurface points slopeRange interceptRange resolution)).
Proof.
  rewrite generateCostSurface_grids. cbn [CostSurface.costs]. unfold grid_of.
  apply Forall_forall. intros row Hrow.
  apply in_map_iff in Hrow. destruct Hrow as [i [<- _]].
  apply Forall_forall. intros c Hc.
  apply in_map_iff in Hc. destruct Hc as [j [<- _]].
  apply sign_clear_not_negative, calculateMSE_sign_clear.
Qed.

End IndexFacts.

(** ** Sample datasets *)

From Stdlib Require String.

(** The dataset types [generateSampleDataset] switches on. *)
Module DatasetType.
Import String.
Open Scope string_scope.
Definition linear : string := "linear".
Definition noisy : string := "noisy".
Definition outliers : string := "outliers".
Definition random : string := "random".
End DatasetType.

Section SampleDataset.

Open Scope float_scope.

(** [Math.random] is read from a sequence of draws: [random k] is the
    value of the call number [k].  The generator threads the number of
    draws made so far beside the array it fills. *)
Variable random : nat -> float.

Definition dataset_state : Type := (list Point.t * nat)%type.

Definition linear_step (n : nat) (i : nat) (st : dataset_state) : dataset_state :=
  let '(points, k) := st in
  let x := (JS.of_nat i / JS.of_nat n) * 10 in
  let y := 2 * x + 3 + (random k - 0.5) * 2 in
  (points ++ [Point.mk x y], S k).

Definition noisy_step (n : nat) (i : nat) (st : dataset_state) : dataset_state :=
  let '(points, k) := st in
  let x := (JS.of_nat i / JS.of_nat n) * 10 in
  let y := 1.5 * x + 5 + (random k - 0.5) * 8 in
  (points ++ [Point.mk x y], S k).

Definition outliers_step (n : nat) (i : nat) (st : dataset_state) : dataset_state :=
  let '(points, k) := st in
  let x := (JS.of_nat i / JS.of_nat n) * 10 in
  let y := 2 * x + 3 + (random k - 0.5) * 2 in
  if ((i =? 5) || (i =? 15))%nat then
    let y := y + (if JS.gt (random (S k)) 0.5 then 1 else -1) * 15 in
    (points ++ [Point.mk x y], S (S k))
  else (points ++ [Point.mk x y], S k).

Definition random_step (i : nat) (st : dataset_state) : dataset_state :=
  let '(points, k) := st in
  let x := random k * 10 in
  let y := random (S k) * 20 in
  (points ++ [Point.mk x y], S (S k)).

(** [generateSampleDataset(type, n)] started after [k] draws; the
    [default] case is the call [generateSampleDataset('linear', n)]. *)
Definition generateSampleDataset (type : String.string) (n : nat) (k : nat)
  : dataset_state :=
  if String.eqb type DatasetType.linear then
    JS.for_loop n 0 (linear_step n) ([], k)
  else if String.eqb type DatasetType.noisy then
    JS.for_loop n 0 (noisy_step n) ([], k)
  else if String.eqb type DatasetType.outliers then
    JS.for_loop n 0 (outliers_step n) ([], k)
  else if String.eqb type DatasetType.random then
    JS.for_loop n 0 random_step ([], k)
  else
    JS.for_loop n 0 (linear_step n) ([], k).

(** A property that every round of a counting loop carries on holds when
    the loop ends. *)
Lemma for_loop_invariant {St : Type} (P : nat -> St -> Prop)
      (body : nat -> St -> St) (count i : nat) (st : St) :
  (forall j s, (i <= j < i + count)%nat -> P j s -> P (S j) (body j s)) ->
  P i st -> P (i + count)%nat (JS.for_loop count i body st).
Proof.
  revert i st. induction count as [|count IH]; intros i st Hstep H0.
  - rewrite Nat.add_0_r. exact H0.
  - cbn [JS.for_loop]. replace (i + S count)%nat with (S i + count)%nat by lia.
    apply IH.
    + intros j s Hj. apply Hstep. lia.
    + apply Hstep; [lia|exact H0].
Qed.

(** After [i] rounds: [i] points, the one at position [j] with the
    evenly spaced x of that position. *)
Definition spaced_upto (n i : nat) (st : dataset_state) : Prop :=
  length (fst st) = i
  /\ forall j p, nth_error (fst st) j = Some p ->
                 Point.x p = (JS.of_nat j / JS.of_nat n) * 10.

Lemma spaced_push (n i : nat) (points : list Point.t) (k k' : nat) (y : float) :
  spaced_upto n i (points, k) ->
  spaced_upto n (S i) (points ++ [Point.mk ((JS.of_nat i / JS.of_nat n) * 10) y], k').
Proof.
  unfold spaced_upto. cbn [fst]. intros [Hlen Hx]. split.
  - rewrite length_app. simpl. lia.
  - intros j p Hj. destruct (Nat.lt_ge_cases j (length points)) as [Hlt|Hge].
    + rewrite nth_error_app1 in Hj by exact Hlt. apply Hx. exact Hj.
    + rewrite nth_error_app2 in Hj by exact Hge.
      destruct (j - length points)%nat as [|d] eqn:Ed.
      * injection Hj as <-. replace j with i by lia. reflexivity.
      * destruct d; discriminate.
Qed.

(** X12.  Every dataset type yields exactly [n] points; every type other than
    ['random'], an unknown one included, places the point of index [i] at
    [x = (i / n) · 10]. *)
Theorem generateSampleDataset_shape (type : String.string) (n k : nat) :
  length (fst (generateSampleDataset type n k)) = n
  /\ (String.eqb type DatasetType.random = false ->
      forall i p, nth_error (fst (generateSampleDataset type n k)) i = Some p ->
                  Point.x p = (JS.of_nat i / JS.of_nat n) * 10).
Proof.
  assert (Hspaced : forall step,
             (forall i points k' , exists y k'',
                   step i (points, k')
                   = (points ++ [Point.mk ((JS.of_nat i / JS.of_nat n) * 10) y], k'')) ->
             spaced_upto n n (JS.for_loop n 0 step ([], k))).
  { intros step Hstep.
    apply (@for_loop_invariant _ (spaced_upto n) step n 0%nat).
    - intros j [points k'] _ H. destruct (Hstep j points k') as [y [k'' ->]].
      eapply spaced_push. exact H.
    - split; [reflexivity|]. intros j p Hj. destruct j; discriminate. }
  assert (Hlin : spaced_upto n n (JS.for_loop n 0 (linear_step n) ([], k))).
  { apply Hspaced. intros i points k'. eexists. eexists. reflexivity. }
  assert (Hnoisy : spaced_upto n n (JS.for_loop n 0 (noisy_step n) ([], k))).
  { apply Hspaced. intros i points k'. eexists. eexists. reflexivity. }
  assert (Hout : spaced_upto n n (JS.for_loop n 0 (outliers_step n) ([], k))).
  { apply Hspaced. intros i points k'. unfold outliers_step.
    destruct ((i =? 5) || (i =? 15))%nat; eexists; eexists; reflexivity. }
  assert (Hrand : length (fst (JS.for_loop n 0 random_step ([], k))) = n).
  { apply (@for_loop_invariant _ (fun i st => length (fst st) = i) random_step n 0%nat).
    - intros j [points k'] _ H. unfold random_step. cbn [fst] in *.
      rewrite length_app. simpl. lia.
    - reflexivity. }
  unfold generateSampleDataset.
  destruct (String.eqb type DatasetType.linear);
    [split; [apply Hlin|intros _; apply Hlin]|].
  destruct (String.eqb type DatasetType.noisy);
    [split; [apply Hnoisy|intros _; apply Hnoisy]|].
  destruct (String.eqb type DatasetType.outliers);
    [split; [apply Hout|intros _; apply Hout]|].
  destruct (String.eqb type DatasetType.random).
  - split; [exact Hrand|discriminate].
  - split; [apply Hlin|intros _; apply Hlin].
Qed.

(** An unknown type gives the linear dataset, from the same draws. *)
Lemma generateSampleDataset_unknown (type : String.string) (n k : nat) :
  String.eqb type DatasetType.linear = false ->
  String.eqb type DatasetType.noisy = false ->
  String.eqb type DatasetType.outliers = false ->
  String.eqb type DatasetType.random = false ->
  generateSampleDataset type n k = generateSampleDataset DatasetType.linear n k.
Proof.
  intros H1 H2 H3 H4. unfold generateSampleDataset. rewrite H1, H2, H3, H4.
  reflexivity.
Qed.

(** A loop that in round [i], entered after [draws i] draws, pushes the
    point [point i] and leaves [draws (S i)] draws behind builds exactly
    those points. *)
Lemma for_loop_points (step : nat -> dataset_state -> dataset_state)
      (point : nat -> Point.t) (draws : nat -> nat) (n : nat) :
  (forall i points, step i (points, draws i) = (points ++ [point i], draws (S i))) ->
  snd (JS.for_loop n 0 step ([], draws 0%nat)) = draws n
  /\ length (fst (JS.for_loop n 0 step ([], draws 0%nat))) = n
  /\ forall i p, nth_error (fst (JS.for_loop n 0 step ([], draws 0%nat))) i = Some p ->
                 p = point i.
Proof.
  intros Hstep.
  apply (@for_loop_invariant _
           (fun i st => snd st = draws i
                        /\ length (fst st) = i
                        /\ forall j p, nth_error (fst st) j = Some p -> p = point j)
           step n 0%nat).
  - intros j [points k'] _ [Hk [Hlen Hpts]]. cbn [fst snd] in *. subst k'.
    rewrite Hstep. cbn [fst snd]. split; [reflexivity|]. split.
    + rewrite length_app. simpl. lia.
    + intros i p Hi. destruct (Nat.lt_ge_cases i (length points)) as [Hlt|Hge].
      * rewrite nth_error_app1 in Hi by exact Hlt. apply Hpts. exact Hi.
      * rewrite nth_error_app2 in Hi by exact Hge.
        destruct (i - length points)%nat as [|d] eqn:Ed.
        -- injection Hi as <-. replace i with j by lia. reflexivity.
        -- destruct d; discriminate.
  - cbn [fst snd]. split; [reflexivity|]. split; [reflexivity|].
    intros j p Hj. destruct j; discriminate.
Qed.

(** The point the ['linear'] case pushes in round [i] of [n] when the
    draw is [r]. *)
Definition linear_point (n i : nat) (r : float) : Point.t :=
  let x := (JS.of_nat i / JS.of_nat n) * 10 in
  Point.mk x (2 * x + 3 + (r - 0.5) * 2).

(** The number of draws made when round [i] of the ['outliers'] case
    starts, [k] having been made before the call: one for every round
    run, and one more for each of the rounds 5 and 15 among them. *)
Definition outliers_draws (k i : nat) : nat :=
  (k + i + (if 5 <? i then 1 else 0) + (if 15 <? i then 1 else 0))%nat.

(** X13.  The ['outliers'] dataset deviates from the linear recipe at the
    indices 5 and 15 and nowhere else, for every [n] and every sequence
    of draws.  The ['linear'] case makes one draw per point and its
    point of index [i] is [linear_point] of draw [k + i].  The
    ['outliers'] case builds at every index other than 5 and 15 the
    point of the linear recipe from the draw that round reads; at index
    5 and at index 15 it makes one more draw and moves [y] by [+15] if
    that draw is above 0.5 and by [-15] otherwise.  The first five
    points of the two datasets are the same. *)
Theorem generateSampleDataset_outliers_deviations (n k : nat) :
  (snd (generateSampleDataset DatasetType.linear n k) = (k + n)%nat
   /\ forall i p,
        nth_error (fst (generateSampleDataset DatasetType.linear n k)) i = Some p ->
        p = linear_point n i (random (k + i)))
  /\ (snd (generateSampleDataset DatasetType.outliers n k) = outliers_draws k n
      /\ forall i p,
           nth_error (fst (generateSampleDataset DatasetType.outliers n k)) i = Some p ->
           let d := outliers_draws k i in
           let q := linear_point n i (random d) in
           (i <> 5%nat -> i <> 15%nat -> p = q)
           /\ (i = 5%nat \/ i = 15%nat ->
               p = Point.mk (Point.x q)
                            (Point.y q
                             + (if JS.gt (random (S d)) 0.5 then 1 else -1) * 15)))
  /\ (forall i, (i < 5)%nat ->
                nth_error (fst (generateSampleDataset DatasetType.outliers n k)) i
                = nth_error (fst (generateSampleDataset DatasetType.linear n k)) i).
Proof.
  unfold generateSampleDataset.
  change (String.eqb DatasetType.outliers DatasetType.linear) with false.
  change (String.eqb DatasetType.outliers DatasetType.noisy) with false.
  change (String.eqb DatasetType.outliers DatasetType.outliers) with true.
  change (String.eqb DatasetType.linear DatasetType.linear) with true.
  cbv iota.
  destruct (@for_loop_points (linear_step n)
              (fun i => linear_point n i (random (k + i)))
              (fun i => (k + i)%nat) n) as [Hld [Hll Hlp]].
  { intros i points. unfold linear_step, linear_point. cbv zeta.
    rewrite Nat.add_succ_r. reflexivity. }
  destruct (@for_loop_points (outliers_step n)
              (fun i =>
                 let d := outliers_draws k i in
                 let q := linear_point n i (random d) in
                 if ((i =? 5) || (i =? 15))%nat
                 then Point.mk (Point.x q)
                               (Point.y q
                                + (if JS.gt (random (S d)) 0.5 then 1 else -1) * 15)
                 else q)
              (outliers_draws k) n) as [Hod [Hol Hop]].
  { intros i points. unfold outliers_step, linear_point. cbv zeta.
    cbn [Point.x Point.y].
    destruct (Nat.eqb_spec i 5) as [->|H5]; cbn [orb].
    - f_equal. unfold outliers_draws. cbn [Nat.ltb Nat.leb]. lia.
    - destruct (Nat.eqb_spec i 15) as [->|H15].
      + f_equal. unfold outliers_draws. cbn [Nat.ltb Nat.leb]. lia.
      + f_equal. unfold outliers_draws.
        destruct (Nat.ltb_spec 5 i); destruct (Nat.ltb_spec 5 (S i));
          destruct (Nat.ltb_spec 15 i); destruct (Nat.ltb_spec 15 (S i)); lia. }
  replace (k + 0)%nat with k in * by lia.
  replace (outliers_draws k 0) with k in * by (unfold outliers_draws; simpl; lia).
  split; [split; [exact Hld|exact Hlp]|]. split; [split; [exact Hod|]|].
  - intros i p Hi. apply Hop in Hi. cbv zeta in *. split.
    + intros H5 H15. rewrite Hi.
      destruct (Nat.eqb_spec i 5); [contradiction|].
      destruct (Nat.eqb_spec i 15); [contradiction|]. reflexivity.
    + intros [->| ->]; rewrite Hi; reflexivity.
  - intros i Hi.
    destruct (nth_error (fst (JS.for_loop n 0 (outliers_step n) ([], k))) i)
      as [p|] eqn:Eo;
      destruct (nth_error (fst (JS.for_loop n 0 (linear_step n) ([], k))) i)
        as [q|] eqn:El.
    + apply Hop in Eo. apply Hlp in El. rewrite Eo, El. cbv zeta.
      destruct (Nat.eqb_spec i 5); [lia|]. destruct (Nat.eqb_spec i 15); [lia|].
      cbn [orb]. f_equal. f_equal. f_equal. unfold outliers_draws.
      destruct (Nat.ltb_spec 5 i); destruct (Nat.ltb_spec 15 i); lia.
    + apply nth_error_None in El.
      assert (i < n)%nat by (rewrite <- Hol; apply nth_error_Some; congruence). lia.
    + apply nth_error_None in Eo.
      assert (i < n)%nat by (rewrite <- Hll; apply nth_error_Some; congruence). lia.
    + reflexivity.
Qed.

End SampleDataset.

(** ** The regression visualizer: removing and marking points *)

(** A [Set] of indices, in insertion order. *)
Module JSSet.

Definition t : Type := list nat.

Definition has (s : t) (i : nat) : bool := existsb (Nat.eqb i) s.

Definition add (s : t) (i : nat) : t := if has s i then s else s ++ [i].

Definition delete (s : t) (i : nat) : t := filter (fun j => negb (j =? i)%nat) s.

Definition forEach {St : Type} (f : St -> nat -> St) (s : t) (st : St) : St :=
  fold_left f s st.

End JSSet.

(** [array.filter((v, i) => f(v, i))], the index counted from [i]. *)
Fixpoint filteri_from {A : Type} (f : A -> nat -> bool) (i : nat) (arr : list A)
  : list A :=
  match arr with
  | [] => []
  | v :: rest =>
      if f v i then v :: filteri_from f (S i) rest
      else filteri_from f (S i) rest
  end.

Definition filteri {A : Type} (f : A -> nat -> bool) (arr : list A) : list A :=
  filteri_from f 0 arr.

Module Visualizer.

(** The state of [RegressionVisualizer]; [selectedPoint] is [None] for
    [null]. *)
Record state := mk_state {
  points : list Point.t;
  outlierIndices : JSSet.t;
  showOutliers : bool;
  selectedPoint : option nat
}.

Definition activePoints (st : state) : list Point.t :=
  if showOutliers st then points st
  else filteri (fun _ i => negb (JSSet.has (outlierIndices st) i)) (points st).

(** The two state updates of [removeSelectedPoint]. *)
Definition remove_point (selected : nat) (prev : list Point.t) : list Point.t :=
  filteri (fun _ i => negb (i =? selected)%nat) prev.

Definition reindex_outliers (selected : nat) (prev : JSSet.t) : JSSet.t :=
  JSSet.forEach
    (fun newSet i =>
       if (i <? selected)%nat then JSSet.add newSet i
       else if (selected <? i)%nat then JSSet.add newSet (i - 1)
       else newSet)
    prev [].

Definition removeSelectedPoint (st : state) : state :=
  match selectedPoint st with
  | None => st
  | Some selected =>
      mk_state (remove_point selected (points st))
               (reindex_outliers selected (outlierIndices st))
               (showOutliers st)
               None
  end.

Definition toggle_outlier (selected : nat) (prev : JSSet.t) : JSSet.t :=
  let newSet := prev in
  if JSSet.has newSet selected then JSSet.delete newSet selected
  else JSSet.add newSet selected.

Definition toggleOutlier (st : state) : state :=
  match selectedPoint st with
  | None => st
  | Some selected =>
      mk_state (points st) (toggle_outlier selected (outlierIndices st))
               (showOutliers st) (selectedPoint st)
  end.

End Visualizer.

Section VisualizerFacts.

Lemma has_add (s : JSSet.t) (i j : nat) :
  JSSet.has (JSSet.add s i) j = JSSet.has s j || (j =? i)%nat.
Proof.
  unfold JSSet.add. destruct (JSSet.has s i) eqn:E.
  - destruct (Nat.eqb_spec j i) as [->|_]; [rewrite E; reflexivity|].
    rewrite orb_false_r. reflexivity.
  - unfold JSSet.has. rewrite existsb_app. simpl. rewrite orb_false_r. reflexivity.
Qed.

Lemma has_delete (s : JSSet.t) (i j : nat) :
  JSSet.has (JSSet.delete s i) j = JSSet.has s j && negb (j =? i)%nat.
Proof.
  unfold JSSet.has, JSSet.delete.
  induction s as [|a s IH]; [reflexivity|]. cbn [filter existsb].
  destruct (Nat.eqb_spec a i) as [Hai|Hai]; cbn [negb]; [|cbn [existsb]];
    rewrite IH;
    destruct (Nat.eqb_spec j i) as [Hji|Hji];
    destruct (Nat.eqb_spec j a) as [Hja|Hja]; cbn [negb orb andb];
    rewrite ?andb_false_r, ?andb_true_r; try reflexivity; try lia.
Qed.

(** The index a remaining point had before the removal. *)
Definition index_before (selected j : nat) : nat :=
  if (j <? selected)%nat then j else S j.

Lemma filteri_from_past {A : Type} (selected i : nat) (l : list A) :
  (selected < i)%nat ->
  filteri_from (fun _ k => negb (k =? selected)%nat) i l = l.
Proof.
  revert i. induction l as [|v rest IH]; intros i Hi; [reflexivity|].
  cbn [filteri_from]. replace (i =? selected)%nat with false
    by (symmetry; apply Nat.eqb_neq; lia).
  cbn [negb]. rewrite IH by lia. reflexivity.
Qed.

Lemma nth_error_remove_from {A : Type} (selected i : nat) (l : list A) (j : nat) :
  (i <= selected)%nat ->
  nth_error (filteri_from (fun _ k => negb (k =? selected)%nat) i l) j
  = nth_error l (if (i + j <? selected)%nat then j else S j).
Proof.
  revert i j. induction l as [|v rest IH]; intros i j Hi.
  - cbn [filteri_from]. destruct (i + j <? selected)%nat; destruct j; reflexivity.
  - cbn [filteri_from]. destruct (Nat.eqb_spec i selected) as [->|Hne]; cbn [negb].
    + rewrite filteri_from_past by lia.
      replace (selected + j <? selected)%nat with false
        by (symmetry; apply Nat.ltb_ge; lia).
      reflexivity.
    + destruct j as [|j].
      * replace (i + 0 <? selected)%nat with true
          by (symmetry; apply Nat.ltb_lt; lia).
        reflexivity.
      * cbn [nth_error]. rewrite IH by lia.
        replace (S i + j)%nat with (i + S j)%nat by lia.
        destruct (i + S j <? selected)%nat; reflexivity.
Qed.

Lemma has_reindex_step (selected : nat) (acc : JSSet.t) (a j : nat) :
  JSSet.has
    (if (a <? selected)%nat then JSSet.add acc a
     else if (selected <? a)%nat then JSSet.add acc (a - 1)
     else acc) j
  = JSSet.has acc j || (index_before selected j =? a)%nat.
Proof.
  unfold index_before.
  destruct (Nat.ltb_spec a selected); [|destruct (Nat.ltb_spec selected a)];
    rewrite ?has_add; destruct (Nat.ltb_spec j selected);
    repeat match goal with
           | |- context [(?x =? ?y)%nat] => destruct (Nat.eqb_spec x y)
           end;
    try lia; rewrite ?orb_false_r; reflexivity.
Qed.

Lemma has_reindex (selected : nat) (prev : JSSet.t) (j : nat) :
  JSSet.has (Visualizer.reindex_outliers selected prev) j
  = JSSet.has prev (index_before selected j).
Proof.
  unfold Visualizer.reindex_outliers, JSSet.forEach.
  assert (H : forall acc,
             JSSet.has
               (fold_left
                  (fun newSet i =>
                     if (i <? selected)%nat then JSSet.add newSet i
                     else if (selected <? i)%nat then JSSet.add newSet (i - 1)
                     else newSet) prev acc) j
             = JSSet.has acc j || JSSet.has prev (index_before selected j)).
  { induction prev as [|a prev IH]; intros acc.
    - cbn. rewrite orb_false_r. reflexivity.
    - cbn [fold_left]. rewrite IH, has_reindex_step.
      unfold JSSet.has at 4. cbn [existsb]. rewrite orb_assoc. reflexivity. }
  rewrite H. reflexivity.
Qed.

(** X14.  Removing the selected point keeps the marks on their points: the
    point now at index [j] is the point that was at [index_before], and it
    is marked as an outlier exactly when it was; the selection is
    cleared. *)
Theorem removeSelectedPoint_keeps_marks (st : Visualizer.state) (selected j : nat) :
  Visualizer.selectedPoint st = Some selected ->
  nth_error (Visualizer.points (Visualizer.removeSelectedPoint st)) j
  = nth_error (Visualizer.points st) (index_before selected j)
  /\ JSSet.has (Visualizer.outlierIndices (Visualizer.removeSelectedPoint st)) j
     = JSSet.has (Visualizer.outlierIndices st) (index_before selected j)
  /\ Visualizer.selectedPoint (Visualizer.removeSelectedPoint st) = None.
Proof.
  intros Hsel. unfold Visualizer.removeSelectedPoint. rewrite Hsel.
  cbn [Visualizer.points Visualizer.outlierIndices Visualizer.selectedPoint].
  split; [|split; [apply has_reindex|reflexivity]].
  unfold Visualizer.remove_point, filteri.
  rewrite nth_error_remove_from by lia. reflexivity.
Qed.

End VisualizerFacts.

Section VisualizerMarks.

Lemma removeSelectedPoint_keeps_marks_witness :
  let st := Visualizer.mk_state [Point.mk 1 2; Point.mk 2 9; Point.mk 3 6]
                                [2%nat; 1%nat] true (Some 1%nat) in
  Visualizer.selectedPoint st = Some 1%nat
  /\ (nth_error (Visualizer.points (Visualizer.removeSelectedPoint st)) 1
      = nth_error (Visualizer.points st) (index_before 1 1)
      /\ JSSet.has (Visualizer.outlierIndices (Visualizer.removeSelectedPoint st)) 1
         = JSSet.has (Visualizer.outlierIndices st) (index_before 1 1)
      /\ Visualizer.selectedPoint (Visualizer.removeSelectedPoint st) = None).
Proof.
  intros st. split; [reflexivity|].
  apply (@removeSelectedPoint_keeps_marks st 1%nat 1%nat). reflexivity.
Defined.

(** X15.  Toggling flips the mark of the selected index and of no other; the
    points and the selection stay as they are, so a second toggle
    restores every mark. *)
Theorem toggleOutlier_flips_selected (st : Visualizer.state) (selected j : nat) :
  Visualizer.selectedPoint st = Some selected ->
  JSSet.has (Visualizer.outlierIndices (Visualizer.toggleOutlier st)) j
  = (if (j =? selected)%nat
     then negb (JSSet.has (Visualizer.outlierIndices st) selected)
     else JSSet.has (Visualizer.outlierIndices st) j)
  /\ Visualizer.points (Visualizer.toggleOutlier st) = Visualizer.points st
  /\ Visualizer.selectedPoint (Visualizer.toggleOutlier st) = Some selected
  /\ JSSet.has (Visualizer.outlierIndices
                  (Visualizer.toggleOutlier (Visualizer.toggleOutlier st))) j
     = JSSet.has (Visualizer.outlierIndices st) j.
Proof.
  intros Hsel.
  assert (Hone : forall s,
             JSSet.has (Visualizer.toggle_outlier selected s) j
             = if (j =? selected)%nat then negb (JSSet.has s selected)
               else JSSet.has s j).
  { intros s. unfold Visualizer.toggle_outlier.
    destruct (JSSet.has s selected) eqn:E.
    - rewrite has_delete.
      destruct (Nat.eqb_spec j selected) as [Hj|Hj]; cbn [negb].
      + apply andb_false_r.
      + apply andb_true_r.
    - rewrite has_add.
      destruct (Nat.eqb_spec j selected) as [Hj|Hj]; cbn [negb].
      + apply orb_true_r.
      + apply orb_false_r. }
  assert (Hself : forall s,
             JSSet.has (Visualizer.toggle_outlier selected s) selected
             = negb (JSSet.has s selected)).
  { intros s. unfold Visualizer.toggle_outlier.
    destruct (JSSet.has s selected) eqn:E.
    - rewrite has_delete, Nat.eqb_refl. apply andb_false_r.
    - rewrite has_add, Nat.eqb_refl. apply orb_true_r. }
  unfold Visualizer.toggleOutlier. rewrite Hsel.
  cbn [Visualizer.points Visualizer.outlierIndices Visualizer.selectedPoint].
  repeat split; try reflexivity.
  - apply Hone.
  - rewrite Hone, Hself, Hone.
    destruct (j =? selected)%nat eqn:Ej; [|reflexivity].
    apply Nat.eqb_eq in Ej. subst j. apply negb_involutive.
Qed.

Lemma toggleOutlier_flips_selected_witness :
  let st := Visualizer.mk_state [Point.mk 1 2; Point.mk 2 9; Point.mk 3 6]
                                [2%nat] true (Some 1%nat) in
  Visualizer.selectedPoint st = Some 1%nat
  /\ JSSet.has (Visualizer.outlierIndices (Visualizer.toggleOutlier st)) 1 = true.
Proof.
  intros st. split; [reflexivity|].
  rewrite (proj1 (@toggleOutlier_flips_selected st 1%nat 1%nat eq_refl)).
  reflexivity.
Defined.

End VisualizerMarks.

Section SampleDatasetWitness.

(** Twenty points, every draw 0.5 but the seventh, the extra draw of
    round 5: the point of index 5 is the linear point [(2.5, 8)] moved
    up by 15. *)
Lemma generateSampleDataset_outliers_deviations_witness :
  nth_error
    (fst (generateSampleDataset (fun j => if (j =? 6)%nat then 0.75 else 0.5)%float
                                DatasetType.outliers 20 0)) 5
  = Some (Point.mk 2.5 23)
  /\ Point.mk 2.5 23
     = Point.mk 2.5 (8 + (if JS.gt 0.75 0.5 then 1 else -1) * 15)%float.
Proof.
  assert (H : nth_error
                (fst (generateSampleDataset
                        (fun j => if (j =? 6)%nat then 0.75 else 0.5)%float
                        DatasetType.outliers 20 0)) 5
              = Some (Point.mk 2.5 23)) by (vm_compute; reflexivity).
  split; [exact H|].
  exact (proj2 (proj2 (proj1 (proj2
                  (@generateSampleDataset_outliers_deviations
                     (fun j => if (j =? 6)%nat then 0.75 else 0.5)%float
                     20%nat 0%nat)))
                  5%nat (Point.mk 2.5 23) H)
               (or_introl eq_refl)).
Defined.

End SampleDatasetWitness.

(** ** The gradient descent simulator: the state shown for an epoch *)

Module DisplayState.
Record t := mk { slope : float; intercept : float; loss : float }.
End DisplayState.

Module Simulator.

(** The fields of an epoch record the simulator reads. *)
Definition of_epoch (e : EpochRecord.t) : DisplayState.t :=
  DisplayState.mk (EpochRecord.slope e) (EpochRecord.intercept e) (EpochRecord.loss e).

(** [currentState]; [None] stands for [undefined], which is also what
    [history[history.length - 1]] is for an empty history. *)
Definition currentState (points : list Point.t) (initialWeight initialBias : float)
           (gdResult : OptimizationRun.t) (currentEpoch : nat)
  : option DisplayState.t :=
  if (currentEpoch =? 0)%nat then
    Some (DisplayState.mk initialWeight initialBias
                          (calculateMSE points initialWeight initialBias))
  else
    let history := OptimizationRun.history gdResult in
    match nth_error history (currentEpoch - 1) with
    | Some epochData => Some (of_epoch epochData)
    | None => option_map of_epoch (nth_error history (length history - 1))
    end.

Definition hasDiverged (gdResult : OptimizationRun.t) : bool :=
  let history := OptimizationRun.history gdResult in
  negb (OptimizationRun.converged gdResult)
  || ((0 <? length history)%nat
      && negb (JS.isFinite
                 (EpochRecord.loss
                    (nth (length history - 1) history (EpochRecord.mk 0 0 0 0 0 0))))).

Inductive badge := Diverged | Converged | Running.

Definition status (gdResult : OptimizationRun.t) (currentEpoch iterations : nat) : badge :=
  if hasDiverged gdResult then Diverged
  else if OptimizationRun.converged gdResult && (currentEpoch =? iterations)%nat
       then Converged
       else Running.

End Simulator.

Section SimulatorFacts.

Variable points : list Point.t.
Variable learningRate : float.
Variable iterations : nat.
Variable initialWeight initialBias : float.

Let gdResult : OptimizationRun.t :=
  gradientDescent points learningRate iterations initialWeight initialBias.

Lemma epochs_from_nonempty (remaining k : nat) (slope intercept : float) :
  (1 <= remaining)%nat ->
  epochs_from points learningRate remaining k slope intercept <> [].
Proof.
  destruct remaining as [|r]; [lia|]. intros _. cbn [epochs_from]. discriminate.
Qed.

(** X16.  With at least one iteration requested the simulator always has a
    state to show: the initial parameters at epoch 0, the record of the
    epoch while the run has one, and the last record of the run for any
    epoch beyond its end. *)
Theorem currentState_defined (currentEpoch : nat) :
  (1 <= iterations)%nat ->
  let history := OptimizationRun.history gdResult in
  exists st,
    Simulator.currentState points initialWeight initialBias gdResult currentEpoch
    = Some st
    /\ (currentEpoch = 0%nat ->
        st = DisplayState.mk initialWeight initialBias
                             (calculateMSE points initialWeight initialBias))
    /\ ((1 <= currentEpoch <= length history)%nat ->
        nth_error (map Simulator.of_epoch history) (currentEpoch - 1) = Some st)
    /\ ((length history < currentEpoch)%nat ->
        nth_error (map Simulator.of_epoch history) (length history - 1) = Some st).
Proof.
  intros Hit history.
  assert (Hne : history <> []).
  { unfold history, gdResult. rewrite gradientDescent_history.
    apply epochs_from_nonempty. exact Hit. }
  unfold Simulator.currentState. fold history.
  destruct currentEpoch as [|e].
  - cbn [Nat.eqb]. eexists. split; [reflexivity|].
    split; [reflexivity|]. split; intros; lia.
  - cbn [Nat.eqb]. replace (S e - 1)%nat with e by lia.
    destruct (nth_error history e) as [epochData|] eqn:E.
    + exists (Simulator.of_epoch epochData). split; [reflexivity|].
      split; [discriminate|]. split.
      * intros _. rewrite nth_error_map, E. reflexivity.
      * intros Hlt.
        assert (e < length history)%nat by (apply nth_error_Some; congruence). lia.
    + apply nth_error_None in E.
      destruct (nth_error history (length history - 1)) as [lastData|] eqn:El.
      * exists (Simulator.of_epoch lastData). split; [reflexivity|].
        split; [discriminate|]. split.
        -- intros Hle. lia.
        -- intros _. rewrite nth_error_map, El. reflexivity.
      * apply nth_error_None in El. destruct history; [contradiction|].
        cbn [length] in El. lia.
Qed.

End SimulatorFacts.

Section SimulatorStatus.

Lemma currentState_defined_witness :
  (1 <= 3)%nat
  /\ exists st,
       Simulator.currentState sample_points 0 0
         (gradientDescent sample_points 0.0625 3 0 0) 7 = Some st.
Proof.
  split; [lia|].
  destruct (@currentState_defined sample_points 0.0625 3%nat 0 0 7%nat)
    as [st [Hst _]]; [lia|].
  exists st. exact Hst.
Defined.

(** X17.  The second test of [hasDiverged] never adds anything: the simulator
    reports divergence exactly when the run is not converged.  A
    converged run shows the success badge once the last epoch of its
    history is reached, and a run that is not converged shows the
    divergence badge at every epoch. *)
Theorem simulator_status (points : list Point.t) (learningRate : float)
        (iterations : nat) (initialWeight initialBias : float) :
  let gdResult :=
    gradientDescent points learningRate iterations initialWeight initialBias in
  Simulator.hasDiverged gdResult = negb (OptimizationRun.converged gdResult)
  /\ (OptimizationRun.converged gdResult = true ->
      Simulator.status gdResult (length (OptimizationRun.history gdResult)) iterations
      = Simulator.Converged)
  /\ (OptimizationRun.converged gdResult = false ->
      forall currentEpoch,
        Simulator.status gdResult currentEpoch iterations = Simulator.Diverged).
Proof.
  intros gdResult.
  assert (Hd : Simulator.hasDiverged gdResult
               = negb (OptimizationRun.converged gdResult)).
  { pose proof (gradientDescent_converged points learningRate iterations
                                            initialWeight initialBias) as Hc0.
    cbv zeta in Hc0. fold gdResult in Hc0.
    unfold Simulator.hasDiverged. rewrite Hc0.
    destruct (0 <? length (OptimizationRun.history gdResult))%nat;
      destruct (JS.isFinite _); reflexivity. }
  split; [exact Hd|]. split.
  - intros Hc. unfold Simulator.status. rewrite Hd, Hc. cbn [negb andb].
    replace (length (OptimizationRun.history gdResult)) with iterations;
      [rewrite Nat.eqb_refl; reflexivity|].
    symmetry. unfold gdResult in *.
    rewrite gradientDescent_converged in Hc. cbv zeta in Hc.
    rewrite gradientDescent_history in *.
    set (h := epochs_from points learningRate iterations 1 initialWeight initialBias) in *.
    apply andb_prop in Hc. destruct Hc as [Hlen Hlast].
    apply Nat.ltb_lt in Hlen.
    apply epochs_from_all_finite.
    intros rec Hrec. destruct (JS.isFinite (EpochRecord.loss rec)) eqn:E; [reflexivity|].
    apply In_nth_error in Hrec. destruct Hrec as [j Hj].
    pose proof (epochs_from_stop _ _ _ _ _ _ _ Hj E) as Hstop. fold h in Hstop.
    rewrite Hstop in Hlast. replace (S j - 1)%nat with j in Hlast by lia.
    rewrite (nth_error_nth _ _ _ Hj) in Hlast. congruence.
  - intros Hc currentEpoch. unfold Simulator.status. rewrite Hd, Hc. reflexivity.
Qed.

End SimulatorStatus.

(** ** The outliers page: the dataset with the outlier put in *)

Module OutlierDemo.

(** [array.slice(start, end)]; [end] is [None] when it is left out.
    A negative position counts from the end of the array. *)
Definition slice {A : Type} (arr : list A) (start : Z) (end_ : option Z) : list A :=
  let len := Z.of_nat (length arr) in
  let relative (v : Z) : Z :=
    if (v <? 0)%Z then Z.max (len + v) 0 else Z.min v len in
  let k := relative start in
  let final := match end_ with None => len | Some e => relative e end in
  firstn (Z.to_nat (final - k)) (skipn (Z.to_nat k) arr).

Definition basePoints : list Point.t :=
  [ Point.mk 1 0x1.0cccccccccccdp+1; Point.mk 2 0x1.0cccccccccccdp+2;
    Point.mk 3 0x1.7333333333333p+2; Point.mk 4 0x1.0333333333333p+3;
    Point.mk 5 0x1.4666666666666p+3; Point.mk 6 12;
    Point.mk 7 0x1.bcccccccccccdp+3; Point.mk 8 0x1.019999999999ap+4;
    Point.mk 9 18; Point.mk 10 0x1.4333333333333p+4 ].

Definition pointsWithOutlier (basePoints : list Point.t) (outlierX : nat)
           (outlierY : float) : list Point.t :=
  slice basePoints 0 (Some (Z.of_nat outlierX - 1)%Z)
  ++ [Point.mk (JS.of_nat outlierX) outlierY]
  ++ slice basePoints (Z.of_nat outlierX) None.

End OutlierDemo.

Section OutlierDemoFacts.

Lemma slice_prefix {A : Type} (arr : list A) (n : nat) :
  (n <= length arr)%nat ->
  OutlierDemo.slice arr 0 (Some (Z.of_nat n)) = firstn n arr.
Proof.
  intros Hn. unfold OutlierDemo.slice. cbv zeta. cbn [Z.ltb Z.compare].
  replace (Z.of_nat n <? 0)%Z with false by (symmetry; apply Z.ltb_ge; lia).
  rewrite (Z.min_l 0) by lia. rewrite Z.min_l by lia.
  cbn [Z.to_nat skipn]. rewrite Z.sub_0_r, Nat2Z.id. reflexivity.
Qed.

Lemma slice_suffix {A : Type} (arr : list A) (n : nat) :
  (n <= length arr)%nat ->
  OutlierDemo.slice arr (Z.of_nat n) None = skipn n arr.
Proof.
  intros Hn. unfold OutlierDemo.slice. cbv zeta.
  replace (Z.of_nat n <? 0)%Z with false by (symmetry; apply Z.ltb_ge; lia).
  rewrite Z.min_l by lia. rewrite Nat2Z.id.
  replace (Z.to_nat (Z.of_nat (length arr) - Z.of_nat n)) with (length arr - n)%nat by lia.
  apply firstn_all2. rewrite length_skipn. lia.
Qed.

(** X18.  For a position from 1 to the number of base points, the outlier
    takes the place of the base point at that position: the dataset keeps
    its length, holds the outlier at index [outlierX - 1] and every other
    base point at its own index. *)
Theorem pointsWithOutlier_replaces (basePoints : list Point.t) (outlierX : nat)
        (outlierY : float) (j : nat) :
  (1 <= outlierX <= length basePoints)%nat ->
  length (OutlierDemo.pointsWithOutlier basePoints outlierX outlierY) = length basePoints
  /\ nth_error (OutlierDemo.pointsWithOutlier basePoints outlierX outlierY) j
     = if (j =? outlierX - 1)%nat
       then Some (Point.mk (JS.of_nat outlierX) outlierY)
       else nth_error basePoints j.
Proof.
  intros [H1 H2]. unfold OutlierDemo.pointsWithOutlier.
  replace (Z.of_nat outlierX - 1)%Z with (Z.of_nat (outlierX - 1)) by lia.
  rewrite slice_prefix, slice_suffix by lia.
  assert (Hlen : length (firstn (outlierX - 1) basePoints) = (outlierX - 1)%nat)
    by (rewrite length_firstn; lia).
  split.
  - rewrite !length_app, Hlen, length_skipn. cbn [length]. lia.
  - destruct (Nat.eqb_spec j (outlierX - 1)) as [->|Hne].
    + rewrite nth_error_app2 by lia. rewrite Hlen, Nat.sub_diag. reflexivity.
    + destruct (Nat.lt_ge_cases j (outlierX - 1)) as [Hlt|Hge].
      * rewrite nth_error_app1 by lia. rewrite nth_error_firstn.
        replace (j <? outlierX - 1)%nat with true by (symmetry; apply Nat.ltb_lt; lia).
        reflexivity.
      * rewrite nth_error_app2 by lia. rewrite Hlen.
        destruct (j - (outlierX - 1))%nat as [|d] eqn:Ed; [lia|].
        cbn [app nth_error]. rewrite nth_error_skipn. f_equal. lia.
Qed.

Lemma pointsWithOutlier_replaces_witness :
  (1 <= 5 <= length OutlierDemo.basePoints)%nat
  /\ length (OutlierDemo.pointsWithOutlier OutlierDemo.basePoints 5 35) = 10%nat.
Proof.
  split; [vm_compute; lia|].
  apply (proj1 (@pointsWithOutlier_replaces OutlierDemo.basePoints 5%nat 35 0%nat
                  ltac:(vm_compute; lia))).
Defined.

End OutlierDemoFacts.

Section FurtherWitnesses.

Lemma generateSampleDataset_shape_witness :
  length (fst (generateSampleDataset (fun _ => 0.5%float) DatasetType.noisy 4 0))
  = 4%nat.
Proof.
  apply (proj1 (@generateSampleDataset_shape (fun _ => 0.5%float)
                  DatasetType.noisy 4%nat 0%nat)).
Defined.

Lemma simulator_status_witness :
  OptimizationRun.converged (gradientDescent sample_points 0.0625 3 0 0) = true
  /\ Simulator.status
       (gradientDescent sample_points 0.0625 3 0 0)
       (length (OptimizationRun.history (gradientDescent sample_points 0.0625 3 0 0)))
       3
     = Simulator.Converged.
Proof.
  assert (H : OptimizationRun.converged (gradientDescent sample_points 0.0625 3 0 0) = true)
    by (vm_compute; reflexivity).
  split; [exact H|].
  exact (proj1 (proj2 (@simulator_status sample_points 0.0625 3%nat 0 0)) H).
Defined.

End FurtherWitnesses.
